(** * WSI pyramid magnification resolver (mhubio): model and verification

    Shallow embedding of the scan / analyze / match / import logic of
    [mhubio/modules/importer/WsiDicomImporter.py] and of its copy in
    [mhubio/modules/processor/WsiMagnificationExtractor.py].

    - Python [int] is [Z]; Python [float] is IEEE 754 binary64, modelled by
      [spec_float] with the operations of [SpecFloat] at [prec = 53],
      [emax = 1024].
    - The record dictionaries [{'filename': .., 'size': .., ...}] are the
      Rocq record [img.t]; the field names are the dictionary keys.
    - Code that can raise returns a [result]; code that reads or changes the
      process state (current directory, file system, standard output, the
      calls into the mhubio core) runs in the state-and-exception monad [M].
    - Where the identity of the dictionaries matters, the Analyzer is given
      a second time on a heap of dictionary objects
      ([analyze_image_list_ref]) and related to the one on values.

    The first part gives the model, the vocabulary of the specification
    and sample data; the second part gives the properties. *)

From Stdlib Require Import ZArith Lia SpecFloat Ascii.
From stdpp Require Import base option list sorting strings gmap pretty.

Set Default Proof Using "Type".

(* ================================================================= *)
(** ** Exceptions and results *)

Inductive exn : Type :=
| ZeroDivisionError
| OverflowError
| IndexError
| TypeError
| ValueError
| FileNotFoundError
| NotADirectoryError
| IsADirectoryError
| FileExistsError
| SameFileError
| InvalidDicomError
| AttributeError
| KeyError.

Inductive result (A : Type) : Type :=
| Ok (a : A)
| Raise (e : exn).
Arguments Ok {A} a.
Arguments Raise {A} e.

#[global] Instance result_ret : MRet result := fun A a => Ok a.
#[global] Instance result_bind : MBind result := fun A B f m =>
  match m with
  | Ok a => f a
  | Raise e => Raise e
  end.
#[global] Instance result_fmap : FMap result := fun A B f m =>
  match m with
  | Ok a => Ok (f a)
  | Raise e => Raise e
  end.

(** [l[i]] for [0 <= i]: [IndexError] out of range. *)
Definition getitem {A} (l : list A) (i : nat) : result A :=
  match l !! i with
  | Some a => Ok a
  | None => Raise IndexError
  end.

(* ================================================================= *)
(** ** Python floats: IEEE 754 binary64 *)

Module F64.

Definition prec : Z := 53.
Definition emax : Z := 1024.

Definition float : Type := spec_float.

Definition valid (x : float) : bool := valid_binary prec emax x.

Definition mul : float → float → float := SFmul prec emax.
Definition sub : float → float → float := SFsub prec emax.
Definition div : float → float → float := SFdiv prec emax.
Definition abs : float → float := SFabs.
Definition ltb : float → float → bool := SFltb.
Definition eqb : float → float → bool := SFeqb.

(** The integer [z] as an unrounded binary number [z * 2^0]. *)
Definition exact_of_Z (z : Z) : float :=
  match z with
  | Z0 => S754_zero false
  | Zpos p => S754_finite false p 0
  | Zneg p => S754_finite true p 0
  end.

(** [float(z)] for an [int]: correctly rounded, [OverflowError] when the
    integer is too large for a binary64. *)
Definition of_int (z : Z) : result float :=
  match binary_normalize prec emax z 0 false with
  | S754_infinity _ => Raise OverflowError
  | x => Ok x
  end.

(** [a / b] for two [int]s (true division): [ZeroDivisionError] for a zero
    divisor, else the exact quotient rounded once to nearest-even, and
    [OverflowError] when that is too large for a binary64. *)
Definition int_truediv (a b : Z) : result float :=
  if (b =? 0)%Z then Raise ZeroDivisionError
  else match div (exact_of_Z a) (exact_of_Z b) with
       | S754_infinity _ => Raise OverflowError
       | q => Ok q
       end.

(** The float [1.0]. *)
Definition one : float := S754_finite false 4503599627370496 (-52).

End F64.

Abbreviation float := F64.float.

(* ================================================================= *)
(** ** Image records *)

(** The dictionary built by [pydicom_extract_information], and again (with
    the corrected ['mag']) by [analyze_image_list]. *)
Module img.
Record t : Type := mk {
  filename : string;
  size : Z;
  mag : float;
  cols : Z;
  rows : Z;
  icols : Z;
  irows : Z
}.
End img.

(* ================================================================= *)
(** ** [list.sort(key=..., reverse=True)] *)

(** Python's sort is stable, and stays stable under [reverse=True]: the
    result is in descending key order and elements of equal key keep their
    original relative order. The list that has these two properties is
    unique ([stable_sort_desc_unique] below); it is computed here by
    insertion. *)
Section Sort.
Context {A : Type} (key : A → Z).

Fixpoint insert_desc (x : A) (l : list A) : list A :=
  match l with
  | [] => [x]
  | y :: l' => if (key x <? key y)%Z then y :: insert_desc x l' else x :: l
  end.

Definition sort_desc (l : list A) : list A := foldr insert_desc [] l.

End Sort.

(* ================================================================= *)
(** ** Pyramid Analyzer: [analyze_image_list] *)

(** [imageList[0]['mag']*(imageList[i]['cols']/imageList[0]['cols'])] *)
Definition scaled_magnification (r0 ri : img.t) : result float :=
  q ← F64.int_truediv (img.cols ri) (img.cols r0);
  mret (F64.mul (img.mag r0) q).

(** The body of [for i in range(len(imageList))], run over the indices
    [idx]; [tiledImages] is the list built so far. *)
Fixpoint analyze_loop (imageList : list img.t) (idx : list nat)
    (tiledImages : list img.t) : result (list img.t) :=
  match idx with
  | [] => mret tiledImages
  | i :: idx' =>
      ri ← getitem imageList i;
      if (img.icols ri =? img.irows ri)%Z then
        r0 ← getitem imageList 0;
        magnification ← scaled_magnification r0 ri;
        let rec := img.mk (img.filename ri) (img.size ri) magnification
                     (img.cols ri) (img.rows ri) (img.icols ri) (img.irows ri) in
        analyze_loop imageList idx' (tiledImages ++ [rec])
      else analyze_loop imageList idx' tiledImages
  end.

(** [analyze_image_list(imageList)]: the first component is the caller's
    list after the call (it is sorted in place), the second is the returned
    [tiledImages], or the exception raised. *)
Definition analyze_image_list (imageList : list img.t)
    : list img.t * result (list img.t) :=
  let imageList := sort_desc img.size imageList in
  (imageList, analyze_loop imageList (seq 0 (length imageList)) []).

(* ================================================================= *)
(** ** Magnification Matcher: [return_magnitude_match] *)

(** A Python number: the configured target magnification is an [int] in
    the importer and a [float] in the extractor. *)
Inductive number : Type :=
| IntNum (z : Z)
| FloatNum (x : float).

(** [float(n)] *)
Definition py_float (n : number) : result float :=
  match n with
  | IntNum z => F64.of_int z
  | FloatNum x => mret x
  end.

(** [abs(float(r['mag']) - float(targetMag)) < magTolerance] *)
Definition within_tolerance (targetMag : number) (magTolerance : float)
    (r : img.t) : result bool :=
  m ← py_float (FloatNum (img.mag r));
  t ← py_float targetMag;
  mret (F64.ltb (F64.abs (F64.sub m t)) magTolerance).

Fixpoint match_loop (imageList : list img.t) (targetMag : number)
    (magTolerance : float) (idx : list nat) : result (option img.t) :=
  match idx with
  | [] => mret None
  | i :: idx' =>
      ri ← getitem imageList i;
      b ← within_tolerance targetMag magTolerance ri;
      if b : bool then mret (Some ri)
      else match_loop imageList targetMag magTolerance idx'
  end.

Definition return_magnitude_match (imageList : list img.t)
    (targetMag : number) (magTolerance : float) : result (option img.t) :=
  match_loop imageList targetMag magTolerance (seq 0 (length imageList)).

(* ================================================================= *)
(** ** File system, process state and the calls to collaborators *)

(** An absolute path is the list of its components below the root. A path
    string handed to [os] or [pydicom] is absolute or relative to the
    current working directory. Components [.] and [..] and symbolic links
    are not modelled. *)
Definition path : Type := list string.

Inductive pypath : Type :=
| Abs (p : path)
| Rel (p : path).

Definition resolve (cwd : path) (p : pypath) : path :=
  match p with
  | Abs q => q
  | Rel q => cwd ++ q
  end.

(** [os.path.join(a, b)] *)
Definition path_join (a b : pypath) : pypath :=
  match b with
  | Abs _ => b
  | Rel q => match a with
             | Abs p => Abs (p ++ q)
             | Rel p => Rel (p ++ q)
             end
  end.

(** What [pydicom] finds in a readable DICOM file. A field is [None] when
    the access made by the code raises (attribute or tag absent, value not
    convertible): [ObjectiveLensPower] is
    [float(ds[0x0048,0x0105][0][0x0048,0x0112].value)]; [attrs] are the
    attributes named by meta placeholders. *)
Record dataset : Type := {
  ObjectiveLensPower : option float;
  TotalPixelMatrixColumns : option Z;
  TotalPixelMatrixRows : option Z;
  Columns : option Z;
  Rows : option Z;
  attrs : gmap string string
}.

(** A regular file holds a dataset, or [None] when [pydicom] cannot read
    it. A directory lists its entries in the order the operating system
    reports them ([os.listdir], [glob]); that order is arbitrary. *)
#[warnings="-register-all"]
Inductive node : Type :=
| File (content : option dataset)
| Dir (entries : list (string * node)).

Fixpoint entry (c : string) (es : list (string * node)) : option node :=
  match es with
  | [] => None
  | (c', n) :: es' => if String.eqb c c' then Some n else entry c es'
  end.

Fixpoint set_entry (c : string) (n : node) (es : list (string * node))
    : list (string * node) :=
  match es with
  | [] => [(c, n)]
  | (c', n') :: es' =>
      if String.eqb c c' then (c, n) :: es' else (c', n') :: set_entry c n es'
  end.

Fixpoint lookup_node (n : node) (p : path) : option node :=
  match p with
  | [] => Some n
  | c :: p' =>
      match n with
      | Dir es => n' ← entry c es; lookup_node n' p'
      | File _ => None
      end
  end.

(** The chain of new directories [c1/c2/...] below a new entry. *)
Definition fresh_dirs (p : path) : node :=
  foldr (fun c n => Dir [(c, n)]) (Dir []) p.

(** [os.makedirs(p)] on the tree [n]. *)
Fixpoint fs_makedirs (n : node) (p : path) : result node :=
  match p with
  | [] => Raise FileExistsError
  | c :: p' =>
      match n with
      | File _ => Raise NotADirectoryError
      | Dir es =>
          match entry c es with
          | Some child =>
              child' ← fs_makedirs child p';
              mret (Dir (set_entry c child' es))
          | None => mret (Dir (set_entry c (fresh_dirs p') es))
          end
      end
  end.

(** Create or overwrite the regular file at [p] on the tree [n]. *)
Fixpoint fs_write (n : node) (p : path) (content : option dataset) : result node :=
  match p with
  | [] => Raise IsADirectoryError
  | c :: p' =>
      match n with
      | File _ => Raise NotADirectoryError
      | Dir es =>
          match p' with
          | [] =>
              match entry c es with
              | Some (Dir _) => Raise IsADirectoryError
              | _ => mret (Dir (set_entry c (File content) es))
              end
          | _ :: _ =>
              match entry c es with
              | Some child =>
                  child' ← fs_write child p' content;
                  mret (Dir (set_entry c child' es))
              | None => Raise FileNotFoundError
              end
          end
      end
  end.

(** Arguments of [print(...)] and of [self.v(...)]. An f-string is listed
    by its pieces. *)
Inductive arg : Type :=
| Str (s : string)
| Int (z : Z)
| Flt (x : float)
| Bool (b : bool)
| Path (p : pypath).

(** The observable calls: standard output, the verbose log of the module,
    and the calls into the mhubio core. *)
Inductive event : Type :=
| Print (args : list arg)
| Verbose (args : list arg)
| AddInstance (abspath : path) (sid : string)
| NewInstanceData (abspath : path) (meta : list (string * string))
| MetaUpdate (abspath : path) (meta : list (string * string))
| Confirm (abspath : path).

Record world : Type := World {
  cwd : path;
  root : node;
  trace : list event
}.

(** State and exceptions: a computation returns a value or raises, and
    leaves the world it reached either way. *)
Definition M (A : Type) : Type := world → result A * world.

#[global] Instance M_ret : MRet M := fun A a w => (Ok a, w).
#[global] Instance M_bind : MBind M := fun A B f m w =>
  match m w with
  | (Ok a, w') => f a w'
  | (Raise e, w') => (Raise e, w')
  end.

Definition raise {A} (e : exn) : M A := fun w => (Raise e, w).

Definition lift {A} (r : result A) : M A := fun w => (r, w).

(** [try: m  except: h] with a bare [except]. *)
Definition try_except {A} (m h : M A) : M A := fun w =>
  match m w with
  | (Ok a, w') => (Ok a, w')
  | (Raise _, w') => h w'
  end.

Definition emit (e : event) : M unit := fun w =>
  (Ok (), World (cwd w) (root w) (trace w ++ [e])).

Definition print (args : list arg) : M unit := emit (Print args).

(** [self.v(...)] *)
Definition v (args : list arg) : M unit := emit (Verbose args).

Definition stat (p : pypath) : M (option node) := fun w =>
  (Ok (lookup_node (root w) (resolve (cwd w) p)), w).

(** [os.path.exists], [os.path.isfile], [os.path.isdir] *)
Definition path_exists (p : pypath) : M bool :=
  n ← stat p; mret (bool_decide (is_Some n)).

Definition isfile (p : pypath) : M bool :=
  n ← stat p; mret (match n with Some (File _) => true | _ => false end).

Definition isdir (p : pypath) : M bool :=
  n ← stat p; mret (match n with Some (Dir _) => true | _ => false end).

(** [os.chdir(p)] *)
Definition chdir (p : pypath) : M unit := fun w =>
  match lookup_node (root w) (resolve (cwd w) p) with
  | Some (Dir _) => (Ok (), World (resolve (cwd w) p) (root w) (trace w))
  | Some (File _) => (Raise NotADirectoryError, w)
  | None => (Raise FileNotFoundError, w)
  end.

(** [os.listdir(p)] *)
Definition listdir (p : pypath) : M (list string) :=
  n ← stat p;
  match n with
  | Some (Dir es) => mret (es.*1)
  | Some (File _) => raise NotADirectoryError
  | None => raise FileNotFoundError
  end.

(** [os.makedirs(p)] *)
Definition makedirs (p : pypath) : M unit := fun w =>
  match fs_makedirs (root w) (resolve (cwd w) p) with
  | Ok r => (Ok (), World (cwd w) r (trace w))
  | Raise e => (Raise e, w)
  end.

(** [shutil.copyfile(src, dst)] *)
Definition copyfile (src dst : pypath) : M unit := fun w =>
  match lookup_node (root w) (resolve (cwd w) src) with
  | None => (Raise FileNotFoundError, w)
  | Some (Dir _) => (Raise IsADirectoryError, w)
  | Some (File content) =>
      if bool_decide (resolve (cwd w) src = resolve (cwd w) dst)
      then (Raise SameFileError, w)
      else match fs_write (root w) (resolve (cwd w) dst) content with
           | Ok r => (Ok (), World (cwd w) r (trace w))
           | Raise e => (Raise e, w)
           end
  end.

(** [pydicom.dcmread(file)] and [pydicom.read_file(file)] *)
Definition dcmread (file : pypath) : M dataset :=
  n ← stat file;
  match n with
  | Some (File (Some ds)) => mret ds
  | Some (File None) => raise InvalidDicomError
  | Some (Dir _) => raise IsADirectoryError
  | None => raise FileNotFoundError
  end.

(** [s.endswith(suffix)] and [s.startswith(prefix)] *)
Definition endswith (s suffix : string) : bool :=
  (String.length suffix <=? String.length s)%nat
  && String.eqb (String.substring (String.length s - String.length suffix)
                           (String.length suffix) s) suffix.

Definition startswith (s pre : string) : bool := String.prefix pre s.

(** [glob('*' + suffix)] for a [suffix] without wildcard and not beginning
    with a dot: the names in the current directory that end in [suffix];
    as the pattern does not begin with a dot, names that do are left out
    (the rule of Python's [glob] for hidden files). The current directory
    gone or not a directory gives the empty list. *)
Definition glob_match_star (suffix name : string) : bool :=
  negb (startswith name ".") && endswith name suffix.

Definition glob_star (suffix : string) : M (list string) :=
  n ← stat (Rel []);
  match n with
  | Some (Dir es) => mret (List.filter (glob_match_star suffix) (es.*1))
  | _ => mret []
  end.

(* ================================================================= *)
(** ** Metadata Extractor: [extract_image_info_dicom] *)

(** The returned tuple has two shapes, one per [return] statement:
    [(True, ImageSize, ObjectiveLensPower, TotalColumns, TotalRows,
    ImageColumns, ImageRows)] and [(False, None, None, None, None, None,
    None)]. *)
Inductive extraction : Type :=
| Extracted (ImageSize : Z) (ObjectiveLensPower : float)
    (TotalColumns TotalRows ImageColumns ImageRows : Z)
| ExtractionFailed.

(** Reading a field of the dataset; the access raises when it is absent. *)
Definition field {A} (x : option A) (e : exn) : M A :=
  match x with
  | Some a => mret a
  | None => raise e
  end.

Definition extract_image_info_dicom (dicom_file : string) : M extraction :=
  try_except
    (ds ← dcmread (Rel [dicom_file]);
     ObjectiveLensPower ← field (ObjectiveLensPower ds) KeyError;
     TotalColumns ← field (TotalPixelMatrixColumns ds) AttributeError;
     TotalRows ← field (TotalPixelMatrixRows ds) AttributeError;
     let ImageSize := (TotalRows * TotalColumns)%Z in
     ImageColumns ← field (Columns ds) AttributeError;
     ImageRows ← field (Rows ds) AttributeError;
     mret (Extracted ImageSize ObjectiveLensPower TotalColumns TotalRows
             ImageColumns ImageRows))
    (print [Str "error extracting image metadata from:"; Str dicom_file];;
     mret ExtractionFailed).

(* ================================================================= *)
(** ** Pyramid Scanner: [pydicom_extract_information] *)

(** The body of [for filename in glob('*dcm')]; the loop state is
    [(imageList, goodImageCount)]. *)
Fixpoint scan_loop (filenames : list string) (imageList : list img.t)
    (goodImageCount : Z) : M (list img.t * Z) :=
  match filenames with
  | [] => mret (imageList, goodImageCount)
  | filename :: filenames' =>
      print [Str filename];;
      x ← extract_image_info_dicom filename;
      match x with
      | Extracted size mag cols rows icols irows =>
          let rec := img.mk filename size mag cols rows icols irows in
          scan_loop filenames' (imageList ++ [rec]) (goodImageCount + 1)%Z
      | ExtractionFailed => scan_loop filenames' imageList goodImageCount
      end
  end.

Definition pydicom_extract_information (basedir : pypath) : M (list img.t) :=
  chdir basedir;;
  filenames ← glob_star "dcm";
  '(imageList, goodImageCount) ← scan_loop filenames [] 0%Z;
  print [Str "good image count:"; Int goodImageCount];;
  mret imageList.

(* ================================================================= *)
(** ** Directory-shape probe: [scanSourceDir] *)

Inductive InputDirStructure : Type :=
| FLAT
| SERIES
| UNKNOWN.

(** The body of [for d in os.listdir(input_dir)]; the loop state is
    [(hasOnlyDicomFiles, hasOnlyFolders)]. *)
Fixpoint scanSourceDir_loop (input_dir : pypath) (ds : list string)
    (hasOnlyDicomFiles hasOnlyFolders : bool) : M (bool * bool) :=
  match ds with
  | [] => mret (hasOnlyDicomFiles, hasOnlyFolders)
  | d :: ds' =>
      f ← isfile (path_join input_dir (Rel [d]));
      let hasOnlyDicomFiles :=
        if negb f || negb (endswith d ".dcm") then false else hasOnlyDicomFiles in
      g ← isdir (path_join input_dir (Rel [d]));
      let hasOnlyFolders := if negb g then false else hasOnlyFolders in
      scanSourceDir_loop input_dir ds' hasOnlyDicomFiles hasOnlyFolders
  end.

Definition scanSourceDir (input_dir : pypath) : M InputDirStructure :=
  ds ← listdir input_dir;
  '(hasOnlyDicomFiles, hasOnlyFolders) ← scanSourceDir_loop input_dir ds true true;
  if hasOnlyDicomFiles : bool then mret FLAT
  else if hasOnlyFolders : bool then mret SERIES
  else
    v [Str "unknown directory structure: OnlyDicomFiles: "; Bool hasOnlyDicomFiles;
       Str " OnlyFolders: "; Bool hasOnlyFolders];;
    mret UNKNOWN.

(* ================================================================= *)
(** ** [analyze_image_list] on shared objects *)

(** The caller's list holds references to dictionaries. [heap] maps a
    reference to the dictionary it points to; a list object is given by the
    references it holds, in order. *)
Definition loc : Type := positive.
Abbreviation heap := (gmap loc img.t).

#[global] Instance img_inhabited : Inhabited img.t :=
  populate (img.mk "" 0 (S754_zero false) 0 0 0 0).

(** [x['size']] for the dictionary that [x] points to. *)
Definition size_at (h : heap) (x : loc) : Z := img.size (h !!! x).

(** A new dictionary object. *)
Definition alloc (h : heap) (r : img.t) : loc * heap :=
  let a := fresh (dom h) in (a, <[a := r]> h).

Fixpoint analyze_loop_ref (h : heap) (imageList : list loc) (idx : list nat)
    (tiledImages : list loc) : heap * result (list loc) :=
  match idx with
  | [] => (h, Ok tiledImages)
  | i :: idx' =>
      match getitem imageList i with
      | Raise e => (h, Raise e)
      | Ok xi =>
          let ri := h !!! xi in
          if (img.icols ri =? img.irows ri)%Z then
            match r0 ← (x0 ← getitem imageList 0; mret (h !!! x0));
                  scaled_magnification r0 ri with
            | Raise e => (h, Raise e)
            | Ok magnification =>
                let '(rec, h') :=
                  alloc h (img.mk (img.filename ri) (img.size ri) magnification
                             (img.cols ri) (img.rows ri) (img.icols ri) (img.irows ri)) in
                analyze_loop_ref h' imageList idx' (tiledImages ++ [rec])
            end
          else analyze_loop_ref h imageList idx' tiledImages
      end
  end.

(** The heap after the call, the content of the caller's list object after
    the call, and the returned list of references (or the exception). *)
Definition analyze_image_list_ref (h : heap) (imageList : list loc)
    : heap * list loc * result (list loc) :=
  let imageList := sort_desc (size_at h) imageList in
  let '(h', r) := analyze_loop_ref h imageList (seq 0 (length imageList)) [] in
  (h', imageList, r).

(* ================================================================= *)
(** ** Selective Importer: [WsiDicomImporter] *)

(** The configuration of the module: the [IO.Config] values. [meta] keeps
    the insertion order of the dictionary. [dc] stands for the absolute
    path of [self.config.data.dc], the directory chain of the data
    handler. *)
Record config : Type := {
  source_dir : pypath;
  import_dir : pypath;
  magnification : Z;
  magTolerance : float;
  meta : list (string * string);
  dc : path
}.

(** Modelled from the spec: [DirectoryChain(path=p, parent=dc).abspath] of
    the mhubio core, which is not part of the sources; the source and
    destination directory roots of the configuration, resolved against the
    parent chain. *)
Definition DirectoryChain_abspath (p : pypath) (parent : path) : path :=
  resolve parent p.

(** An [InstanceData]: its absolute path and the meta of its data type. *)
Record instance_data : Type := {
  abspath : path;
  data_meta : list (string * string)
}.

(** Modelled from the spec: [InstanceData('dicom', dicom_data_type,
    instance)] of the mhubio core, which is not part of the sources; the
    managed output location of an instance is taken to be the folder
    [dicom] of the instance. *)
Definition InstanceData (instance : path) (m : list (string * string)) : M instance_data :=
  let d := {| abspath := instance ++ ["dicom"]; data_meta := m |} in
  emit (NewInstanceData (abspath d) m);;
  mret d.

(** [v[1:]] *)
Definition tail_of (s : string) : string :=
  match s with
  | EmptyString => EmptyString
  | String _ s' => s'
  end.

(** The body of [for k, v in dicom_data.type.meta.items()] in
    [updateMeta]. *)
Fixpoint updateMeta_loop (ds : dataset) (items : list (string * string))
    (meta_update : list (string * string)) : M (list (string * string)) :=
  match items with
  | [] => mret meta_update
  | (k, val) :: items' =>
      if startswith val "%" then
        let dicom_field := tail_of val in
        match attrs ds !! dicom_field with
        | Some x => updateMeta_loop ds items' (meta_update ++ [(k, x)])
        | None =>
            v [Str ">> dicom field not found: "; Str dicom_field];;
            updateMeta_loop ds items' (meta_update ++ [(k, "")])
        end
      else updateMeta_loop ds items' meta_update
  end.

(** Modelled from the spec: [dicom_data.type.meta += meta_update] of the
    mhubio core, which is not part of the sources; a placeholder is
    replaced by the value looked up for it. *)
Definition meta_add (m meta_update : list (string * string)) : list (string * string) :=
  (fun kv => match list_find (fun u => u.1 = kv.1) meta_update with
             | Some (_, u) => (kv.1, u.2)
             | None => kv
             end) <$> m.

Definition updateMeta (dicom_data : instance_data) : M instance_data :=
  if negb (existsb (fun kv => startswith kv.2 "%") (data_meta dicom_data))
  then mret dicom_data
  else
    names ← listdir (Abs (abspath dicom_data));
    dicom_file ← lift (getitem names 0);
    let dicom_file_path := path_join (Abs (abspath dicom_data)) (Rel [dicom_file]) in
    ds ← dcmread dicom_file_path;
    meta_update ← updateMeta_loop ds (data_meta dicom_data) [];
    let d := {| abspath := abspath dicom_data;
                data_meta := meta_add (data_meta dicom_data) meta_update |} in
    emit (MetaUpdate (abspath d) (data_meta d));;
    mret d.

(** [matchingImage['filename']]: [None] is not subscriptable. *)
Definition filename_of (matchingImage : option img.t) : result string :=
  match matchingImage with
  | Some r => Ok (img.filename r)
  | None => Raise TypeError
  end.

Section Importer.
Variable self : config.

Definition importSingleInstance (input_dir sorted_dir : path) : M unit :=
  v [Str "> importing single instance"];;
  let instance := sorted_dir in
  emit (AddInstance instance "inst0");;
  imageInfo ← pydicom_extract_information (Abs input_dir);
  tiledImages ← lift (analyze_image_list imageInfo).2;
  v [Str "found "; Int (Z.of_nat (length tiledImages));
     Str "tiled images in this directory"];;
  matchingImage ← lift (return_magnitude_match tiledImages
                          (IntNum (magnification self)) (magTolerance self));
  match matchingImage with
  | None => v [Str "no image matching the target magnification found"]
  | Some r =>
      v [Str (img.filename r)];;
      dicom_data ← InstanceData instance (meta self);
      ex ← path_exists (Abs (abspath dicom_data));
      (if negb ex then makedirs (Abs (abspath dicom_data)) else mret ());;
      copyfile (path_join (Abs input_dir) (Rel [img.filename r]))
               (path_join (Abs (abspath dicom_data)) (Rel [img.filename r]));;
      dicom_data ← updateMeta dicom_data;
      d ← isdir (Abs (abspath dicom_data));
      if d : bool then emit (Confirm (abspath dicom_data)) else mret ()
  end.

(** The body of [for i, sid in enumerate(os.listdir(input_dir))], run over
    the pairs [(i, sid)] that are left. *)
Fixpoint importMultipleInstances_loop (input_dir sorted_dir : path)
    (instances_n : nat) (sids : list (nat * string)) : M unit :=
  match sids with
  | [] => mret ()
  | (i, sid) :: sids' =>
      v [Str "> importing instance ("; Int (Z.of_nat i + 1); Str "/";
         Int (Z.of_nat instances_n); Str "): "; Str sid];;
      let instance := resolve [] (path_join (Abs sorted_dir) (Rel [sid])) in
      emit (AddInstance instance sid);;
      let instance_dir := path_join (Abs input_dir) (Rel [sid]) in
      imageInfo ← pydicom_extract_information instance_dir;
      tiledImages ← lift (analyze_image_list imageInfo).2;
      v [Str "found "; Int (Z.of_nat (length tiledImages));
         Str "tiled images in this directory"];;
      matchingImage ← lift (return_magnitude_match tiledImages
                              (IntNum (magnification self)) (magTolerance self));
      match matchingImage with
      | None =>
          v [Str "no image matching the desired target magnification was found in directory";
             Path (Abs input_dir)]
      | Some r => v [Str "found matching image to import:"; Str (img.filename r)]
      end;;
      dicom_data ← InstanceData instance (meta self);
      ex ← path_exists (Abs (abspath dicom_data));
      (if negb ex then makedirs (Abs (abspath dicom_data)) else mret ());;
      src_name ← lift (filename_of matchingImage);
      dst_name ← lift (filename_of matchingImage);
      copyfile (path_join (Abs input_dir) (path_join instance_dir (Rel [src_name])))
               (path_join (Abs (abspath dicom_data)) (Rel [dst_name]));;
      dicom_data ← updateMeta dicom_data;
      d ← isdir (Abs (abspath dicom_data));
      (if d : bool then emit (Confirm (abspath dicom_data)) else mret ());;
      importMultipleInstances_loop input_dir sorted_dir instances_n sids'
  end.

Definition importMultipleInstances (input_dir sorted_dir : path) : M unit :=
  names ← listdir (Abs input_dir);
  let instances_n := length names in
  sids ← listdir (Abs input_dir);
  importMultipleInstances_loop input_dir sorted_dir instances_n (imap pair sids).

Definition task : M unit :=
  v [Str "> WsiDicomImporter task"];;
  let source_dc := DirectoryChain_abspath (source_dir self) (dc self) in
  let import_dc := DirectoryChain_abspath (import_dir self) (dc self) in
  v [Str "> source input dir: "; Path (source_dir self); Str " --> "; Path (Abs source_dc)];;
  v [Str "> import sort  dir: "; Path (import_dir self); Str " --> "; Path (Abs import_dc)];;
  v [];;
  v [Str "> importing dicom whole slide imaging data"];;
  source_dir_structure ← scanSourceDir (Abs source_dc);
  print [Str "> source dir structure: ";
         Str (match source_dir_structure with
              | FLAT => "InputDirStructure.FLAT"
              | SERIES => "InputDirStructure.SERIES"
              | UNKNOWN => "InputDirStructure.UNKNOWN"
              end)];;
  match source_dir_structure with
  | FLAT => importSingleInstance source_dc import_dc
  | SERIES => importMultipleInstances source_dc import_dc
  | UNKNOWN => raise ValueError
  end.

End Importer.

(* ================================================================= *)
(** ** The specification's vocabulary *)

(** These definitions follow the words of the specification; the theorems
    below compare them with the functions translated from the source. *)

Section StableSort.
Context {A : Type} (key : A → Z).

(** Descending order on keys. *)
Definition desc : relation A := fun x y => (key y ≤ key x)%Z.

(** [s] is the stable descending sort of [l]: it is in descending key order
    and, for each key, carries the elements of that key in the order they
    have in [l]. *)
Definition stable_sort_of (l s : list A) : Prop :=
  StronglySorted desc s ∧
  ∀ k, filter (fun x => key x = k) s = filter (fun x => key x = k) l.

End StableSort.

(** Two presentations of the same records that list records of equal
    ['size'] in the same relative order. *)
Definition same_tie_order (l1 l2 : list img.t) : Prop :=
  ∀ k, filter (fun r => img.size r = k) l1 = filter (fun r => img.size r = k) l2.

(** The square-tile heuristic: [tile_columns == tile_rows]. *)
Definition is_square (r : img.t) : bool := (img.icols r =? img.irows r)%Z.

(** [base_level.base_objective_lens_power *
     (this.total_columns / base_level.total_columns)] *)
Definition effective_magnification (base_level this : img.t) : result float :=
  ratio ← F64.int_truediv (img.cols this) (img.cols base_level);
  mret (F64.mul (img.mag base_level) ratio).

(** The [PyramidLevel] of a record: its fields, with the effective
    magnification relative to [base_level]. *)
Definition PyramidLevel (base_level this : img.t) : result img.t :=
  m ← effective_magnification base_level this;
  mret (img.mk (img.filename this) (img.size this) m (img.cols this)
          (img.rows this) (img.icols this) (img.irows this)).

(** Steps 2 and 3 of the Analyzer on the size-sorted sequence: keep the
    square-tiled records, in order, each resolved against index 0 of the
    whole sorted sequence. *)
Definition levels_of_sorted (sorted : list img.t) : result (list img.t) :=
  match sorted with
  | [] => mret []
  | base_level :: _ => mapM (PyramidLevel base_level) (List.filter is_square sorted)
  end.

(** [|effective_magnification - target_magnification| < tolerance] *)
Definition near (target tolerance : float) (level : img.t) : bool :=
  F64.ltb (F64.abs (F64.sub (img.mag level) target)) tolerance.

(** [|effective_magnification - target_magnification| == tolerance] *)
Definition at_boundary (target tolerance : float) (level : img.t) : bool :=
  F64.eqb (F64.abs (F64.sub (img.mag level) target)) tolerance.

(** The dictionaries that the references [l] point to in [h]. *)
Definition deref (h : heap) (l : list loc) : list img.t := (h !!!.) <$> l.

(** [h] keeps every dictionary of [h0] as it is. *)
Definition preserves (h0 h : heap) : Prop :=
  ∀ x r, h0 !! x = Some r → h !! x = Some r.

(** The world [w] after the events [evs]. *)
Definition add_trace (w : world) (evs : list event) : world :=
  World (cwd w) (root w) (trace w ++ evs).

(** The record that one successful extraction of the file [name] with
    dataset [ds] gives: every header field is there, and the seven keys of
    the dictionary are filled from them. *)
Definition record_of_dataset (name : string) (ds : dataset) : option img.t :=
  mag ← ObjectiveLensPower ds;
  cols ← TotalPixelMatrixColumns ds;
  rows ← TotalPixelMatrixRows ds;
  icols ← Columns ds;
  irows ← Rows ds;
  Some (img.mk name (rows * cols)%Z mag cols rows icols irows).

(** Extraction of a directory entry: it fails on a directory and on a file
    that [pydicom] cannot read. *)
Definition record_of (name : string) (n : node) : option img.t :=
  match n with
  | File (Some ds) => record_of_dataset name ds
  | _ => None
  end.

(** The Scanner's output for a directory with the entries [es]: the
    records of the candidates whose extraction succeeds, in listing
    order. *)
Definition records_of (es : list (string * node)) : list img.t :=
  omap (fun e => if glob_match_star "dcm" e.1 then record_of e.1 e.2 else None) es.

(** What the Scanner prints for the entries [es]. *)
Definition scan_prints (es : list (string * node)) : list event :=
  e ← es;
  if glob_match_star "dcm" e.1 then
    Print [Str e.1] ::
    match record_of e.1 e.2 with
    | Some _ => []
    | None => [Print [Str "error extracting image metadata from:"; Str e.1]]
    end
  else [].

(** What both import paths print and log, from the scan to the match
    decision, for a directory with the entries [es] and the analyzed list
    [tiledImages]. *)
Definition resolve_events (es : list (string * node)) (tiledImages : list img.t)
    : list event :=
  scan_prints es ++
  [Print [Str "good image count:"; Int (Z.of_nat (length (records_of es)))];
   Verbose [Str "found "; Int (Z.of_nat (length tiledImages));
            Str "tiled images in this directory"]].

(** The directory-shape probe calls a directory flat when each entry is a
    regular file whose name ends in [.dcm]. *)
Definition flat_entry (e : string * node) : bool :=
  match e.2 with
  | File _ => endswith e.1 ".dcm"
  | Dir _ => false
  end.

Definition folder_entry (e : string * node) : bool :=
  match e.2 with
  | File _ => false
  | Dir _ => true
  end.

(* ================================================================= *)
(** ** Sample data *)

(** [20.0], [10.0], [2.0], [1.0] and [0.5] *)
Definition f20 : float := S754_finite false 5629499534213120 (-48).
Definition f10 : float := S754_finite false 5629499534213120 (-49).
Definition f2 : float := S754_finite false 4503599627370496 (-51).
Definition f1 : float := S754_finite false 4503599627370496 (-52).

(** [40.0], [5.0], [12.0], [0.5] and [10.6] *)
Definition f40 : float := S754_finite false 5629499534213120 (-47).
Definition f5 : float := S754_finite false 5629499534213120 (-50).
Definition f12 : float := S754_finite false 6755399441055744 (-49).
Definition f0_5 : float := S754_finite false 4503599627370496 (-53).
Definition f10_6 : float := S754_finite false 5967269506265907 (-49).

Definition slide_40x : img.t := img.mk "level0.dcm" 1000000 f20 1000 1000 500 500.
Definition slide_label : img.t := img.mk "label.dcm" 250000 f20 500 500 500 250.
Definition slide_10x : img.t := img.mk "level2.dcm" 62500 f20 250 250 250 250.
Definition slide_twin : img.t := img.mk "twin.dcm" 1000000 f10 2000 500 100 100.
Definition slide_12x : img.t := img.mk "twelve.dcm" 360000 f12 600 600 300 300.
Definition slide_10_6x : img.t := img.mk "odd.dcm" 280900 f10_6 530 530 265 265.
Definition slide_flat : img.t := img.mk "flat.dcm" 2000000 f20 0 7 300 200.


Definition header_40x : dataset :=
  {| ObjectiveLensPower := Some f20; TotalPixelMatrixColumns := Some 1000%Z;
     TotalPixelMatrixRows := Some 1000%Z; Columns := Some 500%Z;
     Rows := Some 500%Z; attrs := {[ "Modality" := "SM" ]} |}.

Definition header_10x : dataset :=
  {| ObjectiveLensPower := Some f20; TotalPixelMatrixColumns := Some 500%Z;
     TotalPixelMatrixRows := Some 500%Z; Columns := Some 500%Z;
     Rows := Some 500%Z; attrs := {[ "Modality" := "SM" ]} |}.

(** A header without the pixel-matrix attributes. *)
Definition header_plain : dataset :=
  {| ObjectiveLensPower := Some f20; TotalPixelMatrixColumns := None;
     TotalPixelMatrixRows := None; Columns := Some 512%Z;
     Rows := Some 512%Z; attrs := ∅ |}.

(** A slide folder: two pyramid levels, a file without the attributes, a
    file that is no DICOM, a name without the dot, a hidden file, a
    subfolder whose name matches. *)
Definition slide_entries : list (string * node) :=
  [ ("level0.dcm", File (Some header_40x));
    ("plain.dcm", File (Some header_plain));
    ("notes.txt", File None);
    ("slidedcm", File (Some header_10x));
    ("broken.dcm", File None);
    (".hidden.dcm", File (Some header_10x));
    ("sub.dcm", Dir []) ].

Definition sample_root : node :=
  Dir [ ("home", Dir []); ("data", Dir slide_entries) ].

Definition sample_world : world :=
  {| cwd := ["home"]; root := sample_root; trace := [] |}.

(** Two dictionaries on the heap and the caller's list of them. *)
Definition sample_heap : heap := {[ 1%positive := slide_10x; 2%positive := slide_40x ]}.
Definition sample_refs : list loc := [1%positive; 2%positive].

(** The default configuration of the importer: target [10], tolerance
    [2.0], meta [{'mod': '%Modality'}]. *)
Definition sample_config : config :=
  {| source_dir := Rel ["in"]; import_dir := Rel ["out"]; magnification := 10;
     magTolerance := f2; meta := [("mod", "%Modality")]; dc := [] |}.

(** A source with one folder per instance: [a] holds no image, [b] holds a
    pyramid with a level at 10x. *)
Definition series_source : node :=
  Dir [ ("a", Dir []);
        ("b", Dir [ ("level0.dcm", File (Some header_40x));
                    ("level1.dcm", File (Some header_10x)) ]) ].

Definition series_root : node :=
  Dir [ ("in", series_source); ("out", Dir []) ].

Definition series_world : world :=
  {| cwd := []; root := series_root; trace := [] |}.

(** A flat source without images. *)
Definition empty_flat_world : world :=
  {| cwd := []; root := Dir [ ("in", Dir []); ("out", Dir []) ]; trace := [] |}.

(** A flat source with a two-level pyramid. *)
Definition flat_world : world :=
  {| cwd := [];
     root := Dir [ ("in", Dir [ ("level0.dcm", File (Some header_40x));
                                ("level1.dcm", File (Some header_10x)) ]);
                   ("out", Dir []) ];
     trace := [] |}.

(* ================================================================= *)
(** ** Further vocabulary *)

(** What [updateMeta] looks up for the items of a meta: for each value
    that begins with [%], in order, the key with the attribute of that name
    or, when the dataset has none, the empty string. *)
Definition resolved_placeholders (ds : dataset) (items : list (string * string))
    : list (string * string) :=
  omap (fun kv => if startswith kv.2 "%"
                  then Some (kv.1, default "" (attrs ds !! tail_of kv.2))
                  else None) items.

(** The log lines of [updateMeta] for the placeholders without attribute. *)
Definition missing_field_logs (ds : dataset) (items : list (string * string))
    : list event :=
  kv ← items;
  if startswith kv.2 "%" then
    match attrs ds !! tail_of kv.2 with
    | Some _ => []
    | None => [Verbose [Str ">> dicom field not found: "; Str (tail_of kv.2)]]
    end
  else [].

(** A meta with a placeholder and one without. *)
Definition sample_data : instance_data :=
  {| abspath := ["data"]; data_meta := [("mod", "%Modality"); ("site", "%BodyPart")] |}.

(** The answer of the directory-shape probe for the entries [es]. *)
Definition structure_of (es : list (string * node)) : InputDirStructure :=
  if forallb flat_entry es then FLAT
  else if forallb folder_entry es then SERIES else UNKNOWN.

(** What [scanSourceDir] logs for the entries [es]. *)
Definition probe_events (es : list (string * node)) : list event :=
  match structure_of es with
  | UNKNOWN => [Verbose [Str "unknown directory structure: OnlyDicomFiles: ";
                         Bool false; Str " OnlyFolders: "; Bool false]]
  | _ => []
  end.

(** The source and the import directory of a configuration, resolved. *)
Definition source_of (self : config) : path :=
  DirectoryChain_abspath (source_dir self) (dc self).

Definition import_of (self : config) : path :=
  DirectoryChain_abspath (import_dir self) (dc self).

(** What [task] logs before it probes the source directory. *)
Definition task_prelude (self : config) : list event :=
  [ Verbose [Str "> WsiDicomImporter task"];
    Verbose [Str "> source input dir: "; Path (source_dir self); Str " --> ";
             Path (Abs (source_of self))];
    Verbose [Str "> import sort  dir: "; Path (import_dir self); Str " --> ";
             Path (Abs (import_of self))];
    Verbose [];
    Verbose [Str "> importing dicom whole slide imaging data"] ].

(** A source with a folder and a file beside it. *)
Definition mixed_world : world :=
  {| cwd := [];
     root := Dir [ ("in", Dir [ ("a", Dir []); ("level0.dcm", File (Some header_40x)) ]);
                   ("out", Dir []) ];
     trace := [] |}.

(** A flat source with a two-level pyramid and an empty [out/dicom]. *)
Definition flat_world_ready : world :=
  {| cwd := [];
     root := Dir [ ("in", Dir [ ("level0.dcm", File (Some header_40x));
                                ("level1.dcm", File (Some header_10x)) ]);
                   ("out", Dir [ ("dicom", Dir []) ]) ];
     trace := [] |}.

(* ================================================================= *)
(** ** [mhubio/core/FileType.py] *)

Module FileType.

(** The members of the enumeration, in the order of the class body. *)
Inductive t : Type :=
| NONE | NRRD | NIFTI | DICOM | DICOMSEG | RTSTRUCT | CSV | TXT | JSON.

#[global] Instance t_eq_dec : EqDecision t.
Proof. solve_decision. Defined.

Definition members : list t :=
  [NONE; NRRD; NIFTI; DICOM; DICOMSEG; RTSTRUCT; CSV; TXT; JSON].

(** [ft.value]; Python's [None] is [None]. *)
Definition value (ft : t) : option string :=
  match ft with
  | NONE => None
  | NRRD => Some "nrrd"
  | NIFTI => Some "nifti"
  | DICOM => Some "dicom"
  | DICOMSEG => Some "dicomseg"
  | RTSTRUCT => Some "rtstruct"
  | CSV => Some "csv"
  | TXT => Some "txt"
  | JSON => Some "json"
  end.

(** [ft.name] *)
Definition name (ft : t) : string :=
  match ft with
  | NONE => "NONE"
  | NRRD => "NRRD"
  | NIFTI => "NIFTI"
  | DICOM => "DICOM"
  | DICOMSEG => "DICOMSEG"
  | RTSTRUCT => "RTSTRUCT"
  | CSV => "CSV"
  | TXT => "TXT"
  | JSON => "JSON"
  end.

(** [__str__] *)
Definition str (ft : t) : string := name ft.

(** [FileType(v)]: the first member with the value [v], [ValueError]
    without one. *)
Definition of_value (v : option string) : result t :=
  match list_find (fun ft => value ft = v) members with
  | Some (_, ft) => Ok ft
  | None => Raise ValueError
  end.

(** [FileType[n]]: the member with the name [n], [KeyError] without one. *)
Definition of_name (n : string) : result t :=
  match list_find (fun ft => name ft = n) members with
  | Some (_, ft) => Ok ft
  | None => Raise KeyError
  end.

End FileType.

(** [c.upper()] and [s.upper()] on ASCII. *)
Definition upper_ascii (c : ascii) : ascii :=
  let n := nat_of_ascii c in
  if ((97 <=? n) && (n <=? 122))%nat then ascii_of_nat (n - 32) else c.

Fixpoint upper (s : string) : string :=
  match s with
  | EmptyString => EmptyString
  | String c s' => String (upper_ascii c) (upper s')
  end.

(** [str(v)] for a member's value. *)
Definition str_of_value (v : option string) : string := default "None" v.

(* ================================================================= *)
(** ** [mhubio/modules/convert/DsegConverter.py] *)

Module Dseg.

(** An item of [bash_command]: a string, or the list that [sorted]
    returns. *)
Inductive item : Type :=
| PStr (s : string)
| PList (l : list string).

(** A call either returns or raises an exception [e], kept by [str(e)]. *)
Inductive outcome (A : Type) : Type :=
| Returned (a : A)
| Raised (msg : string).
Arguments Returned {A} a.
Arguments Raised {A} msg.

(** The log of the module and the calls of the converter. *)
Inductive event : Type :=
| Log (args : list string)
| Run (cmd : list item).

(** [sorted(l)] on strings. *)
Fixpoint insert_sorted (x : string) (l : list string) : list string :=
  match l with
  | [] => [x]
  | y :: l' => if String.leb x y then x :: l else y :: insert_sorted x l'
  end.

Definition sorted (l : list string) : list string := foldr insert_sorted [] l.

(** The strings of [items], or the [TypeError] of [sep.join(items)] at
    the first item that is no string. *)
Fixpoint join_items (i : nat) (items : list item) : outcome (list string) :=
  match items with
  | [] => Returned []
  | PStr s :: items' =>
      match join_items (S i) items' with
      | Returned l => Returned (s :: l)
      | Raised msg => Raised msg
      end
  | PList _ :: _ =>
      Raised ("sequence item " +:+ pretty i +:+ ": expected str instance, list found")
  end.

(** [sep.join(items)] *)
Definition join (sep : string) (items : list item) : outcome string :=
  match join_items 0 items with
  | Returned l => Returned (String.concat sep l)
  | Raised msg => Raised msg
  end.

(** The one configuration value read after the branch. *)
Record config : Type := {
  skip_empty_slices : bool
}.

Section Task.
(** [subprocess.run(bash_command, check = True, text = True)]: it returns,
    or raises an [Exception]. *)
Variable subprocess_run : list item → outcome unit.
Variable self : config.

(** From [# build command] to the end of [task], for the [file_list] and
    the [json_config_path] of either branch; [instance] is
    [str(instance)]. *)
Definition build_and_run (instance : string) (file_list : item)
    (json_config_path in_dicom out_data : string) : list event :=
  let bash_command := [PStr "itkimage2segimage"] in
  let bash_command := bash_command ++ [PStr "--inputImageList"; file_list] in
  let bash_command := bash_command ++ [PStr "--inputDICOMDirectory"; PStr in_dicom] in
  let bash_command := bash_command ++ [PStr "--outputDICOM"; PStr out_data] in
  let bash_command := bash_command ++ [PStr "--inputMetadata"; PStr json_config_path] in
  let bash_command :=
    if skip_empty_slices self then bash_command ++ [PStr "--skip"] else bash_command in
  let error e :=
    Log ["Error while running dicomseg-conversion for instance " +:+ instance
         +:+ ": " +:+ e] in
  match join " " bash_command with
  | Raised e => [error e]
  | Returned line =>
      Log [">> run: "; line] ::
      Run bash_command ::
      match subprocess_run bash_command with
      | Returned _ => []
      | Raised e => [error e]
      end
  end.

(** [task] with a custom json config, [self.json_config_path is not
    None]; [in_segs] are the paths [in_seg.abspath]. The other branch
    builds its [file_list] and config with [segdb] and is not modelled. *)
Definition task_json_config (path : string) (instance : string)
    (in_segs : list string) (in_dicom out_data : string) : list event :=
  let file_list := sorted in_segs in
  let json_config_path := path in
  build_and_run instance (PList file_list) json_config_path in_dicom out_data.

End Task.

End Dseg.

(* ================================================================= *)
(** * Properties *)

(** ** The result monad *)

Lemma result_bind_Ok {A B} (f : A → result B) (m : result A) b :
  m ≫= f = Ok b ↔ ∃ a, m = Ok a ∧ f a = Ok b.
Proof.
  destruct m as [a|e]; simpl; split.
  - eauto.
  - by intros (a' & [= <-] & ?).
  - done.
  - by intros (a' & ? & ?).
Qed.

Lemma getitem_lookup {A} (l : list A) i a : l !! i = Some a → getitem l i = Ok a.
Proof. unfold getitem. by intros ->. Qed.

Lemma getitem_app_length {A} (l1 l2 : list A) a :
  getitem (l1 ++ a :: l2) (length l1) = Ok a.
Proof. apply getitem_lookup, list_lookup_middle. done. Qed.

(** ** Binary64 arithmetic used by the analyzer *)

Section Float.
Local Open Scope Z_scope.

Lemma shiftl_53_div_eucl p :
  Z.div_eucl (Z.shiftl (Z.pos p) 53) (Z.pos p) = (9007199254740992, 0).
Proof.
  pose proof (Z.div_eucl_eq (Z.shiftl (Z.pos p) 53) (Z.pos p) ltac:(lia)) as E.
  pose proof (Z.mod_pos_bound (Z.shiftl (Z.pos p) 53) (Z.pos p) ltac:(lia)) as B.
  unfold Z.modulo in B.
  destruct (Z.div_eucl _ _) as [q r].
  rewrite Z.shiftl_mul_pow2 in E by lia.
  change (2 ^ 53) with 9007199254740992 in E.
  assert (q = 9007199254740992) as -> by nia.
  f_equal. lia.
Qed.

Lemma div_core_self p :
  SFdiv_core_binary F64.prec F64.emax (Z.pos p) 0 (Z.pos p) 0
  = (9007199254740992, -53, loc_Exact).
Proof.
  unfold SFdiv_core_binary.
  replace (Zdigits2 (Z.pos p) + 0 - (Zdigits2 (Z.pos p) + 0)) with 0 by lia.
  change (Z.min (fexp F64.prec F64.emax 0) (0 - 0)) with (-53).
  change (0 - 0 - -53) with 53.
  cbv iota beta. rewrite shiftl_53_div_eucl.
  unfold new_location. destruct (Z.even (Z.pos p)); reflexivity.
Qed.

(** [a / a] is [1.0] for every nonzero [int], whatever its size. *)
Lemma int_truediv_self a : a ≠ 0 → F64.int_truediv a a = Ok F64.one.
Proof.
  intros Ha. unfold F64.int_truediv.
  destruct (Z.eqb_spec a 0) as [|_]; [done|].
  destruct a as [|p|p]; [done | |];
    unfold F64.div, F64.exact_of_Z, SFdiv; rewrite div_core_self; reflexivity.
Qed.

Lemma int_truediv_zero a : F64.int_truediv a 0 = Raise ZeroDivisionError.
Proof. reflexivity. Qed.

Lemma digits2_pos_iter_xO p n :
  Z.pos (digits2_pos (Pos.iter xO p n)) = Z.pos (digits2_pos p) + Z.pos n.
Proof.
  induction n as [|n IH] using Pos.peano_ind.
  - simpl. lia.
  - rewrite Pos.iter_succ. simpl. lia.
Qed.

(** [x * 1.0] is [x] for every binary64, the special values included. *)
Lemma mul_one_r x : F64.valid x = true → F64.mul x F64.one = x.
Proof.
  destruct x as [s|s| |s m e]; intros Hv;
    [by destruct s | by destruct s | done |].
  unfold F64.valid, valid_binary, bounded, canonical_mantissa in Hv.
  apply andb_prop in Hv as [Hc Hb]. apply Z.eqb_eq in Hc.
  unfold F64.mul, F64.one, SFmul.
  rewrite Pos.mul_comm.
  change (4503599627370496 * m)%positive with (Pos.iter xO m 52).
  unfold binary_round_aux.
  assert (shr_fexp F64.prec F64.emax (Z.pos (Pos.iter xO m 52)) (e + -52) loc_Exact
          = ({| shr_m := Z.pos m; shr_r := false; shr_s := false |}, e)) as ->.
  { unfold shr_fexp, Zdigits2. rewrite digits2_pos_iter_xO.
    replace (Z.pos (digits2_pos m) + 52 + (e + -52))
      with (Z.pos (digits2_pos m) + e) by lia.
    rewrite Hc. replace (e - (e + -52)) with 52 by lia.
    unfold shr. f_equal. lia. }
  cbn [shr_m loc_of_shr_record round_nearest_even].
  unfold shr_fexp, Zdigits2. rewrite Hc, Z.sub_diag.
  cbn [shr shr_record_of_loc shr_m].
  rewrite Hb. by destruct s.
Qed.

(** Floats that compare equal are not strictly ordered. *)
Lemma eqb_not_ltb x y : F64.eqb x y = true → F64.ltb x y = false.
Proof.
  unfold F64.eqb, F64.ltb, SFeqb, SFltb.
  by destruct (SFcompare x y) as [[]|].
Qed.

End Float.

(** ** Stable descending sort *)

Section SortFacts.
Context {A : Type} (key : A → Z).
Implicit Types (x y : A) (l s : list A).

#[local] Abbreviation desc := (desc key).
#[local] Abbreviation stable_sort_of := (stable_sort_of key).

Lemma insert_desc_Permutation x l : insert_desc key x l ≡ₚ x :: l.
Proof.
  induction l as [|y l IH]; simpl; [done|].
  destruct (key x <? key y)%Z; [|done].
  by rewrite IH, Permutation_swap.
Qed.

Lemma sort_desc_Permutation l : sort_desc key l ≡ₚ l.
Proof.
  induction l as [|x l IH]; simpl; [done|].
  by rewrite insert_desc_Permutation, IH.
Qed.

Lemma insert_desc_sorted x l :
  StronglySorted desc l → StronglySorted desc (insert_desc key x l).
Proof.
  induction 1 as [|y l Hl IH Hy]; simpl.
  - repeat constructor.
  - destruct (Z.ltb_spec (key x) (key y)) as [Hlt|Hge].
    + constructor; [done|].
      rewrite insert_desc_Permutation. constructor; [unfold desc; lia | done].
    + constructor; [by constructor|].
      constructor; [done|].
      eapply Forall_impl; [exact Hy|]. unfold desc. intros; simpl in *; lia.
Qed.

Lemma sort_desc_sorted l : StronglySorted desc (sort_desc key l).
Proof.
  induction l; simpl; [constructor | by apply insert_desc_sorted].
Qed.

Lemma filter_key_insert_desc k x l :
  filter (fun y => key y = k) (insert_desc key x l)
  = filter (fun y => key y = k) (x :: l).
Proof.
  induction l as [|y l IH]; simpl; [done|].
  destruct (Z.ltb_spec (key x) (key y)) as [Hlt|Hge]; [|done].
  rewrite !filter_cons in *.
  repeat case_decide; simplify_eq; try lia; by rewrite IH.
Qed.

Lemma filter_key_sort_desc k l :
  filter (fun y => key y = k) (sort_desc key l) = filter (fun y => key y = k) l.
Proof.
  induction l as [|x l IH]; simpl; [done|].
  rewrite filter_key_insert_desc, !filter_cons, IH. done.
Qed.

Lemma sort_desc_stable l : stable_sort_of l (sort_desc key l).
Proof. split; [apply sort_desc_sorted | intros; apply filter_key_sort_desc]. Qed.

Lemma sorted_desc_eq_filters s1 s2 :
  StronglySorted desc s1 → StronglySorted desc s2 →
  (∀ k, filter (fun x => key x = k) s1 = filter (fun x => key x = k) s2) →
  s1 = s2.
Proof.
  intros H1. revert s2.
  induction H1 as [|x s1 Hs1 IH Hx]; intros s2 H2 Hf.
  - destruct s2 as [|y s2]; [done|].
    specialize (Hf (key y)). rewrite filter_nil, filter_cons_True in Hf; done.
  - destruct H2 as [|y s2 Hs2 Hy].
    { specialize (Hf (key x)). rewrite filter_nil, filter_cons_True in Hf; done. }
    assert (key y ≤ key x)%Z as Hyx.
    { pose proof (Hf (key y)) as E. rewrite (filter_cons_True _ y) in E by done.
      assert (y ∈ x :: s1) as Hin.
      { eapply (list_elem_of_filter (fun x => key x = key y) (x :: s1)).
        rewrite E. left. }
      apply elem_of_cons in Hin as [->|Hin]; [lia|].
      rewrite Forall_forall in Hx. apply (Hx y Hin). }
    assert (key x ≤ key y)%Z as Hxy.
    { pose proof (Hf (key x)) as E. rewrite (filter_cons_True _ x) in E by done.
      assert (x ∈ y :: s2) as Hin.
      { eapply (list_elem_of_filter (fun z => key z = key x) (y :: s2)).
        rewrite <- E. left. }
      apply elem_of_cons in Hin as [->|Hin]; [lia|].
      rewrite Forall_forall in Hy. apply (Hy x Hin). }
    assert (x = y) as <-.
    { pose proof (Hf (key x)) as E.
      rewrite !filter_cons_True in E by lia. by injection E. }
    f_equal. apply IH; [done|]. intros k.
    specialize (Hf k). rewrite !filter_cons in Hf.
    case_decide; [by injection Hf | done].
Qed.

(** The stable descending sort of a list is unique. *)
Lemma stable_sort_desc_unique l s1 s2 :
  stable_sort_of l s1 → stable_sort_of l s2 → s1 = s2.
Proof.
  intros [H1 F1] [H2 F2]. apply sorted_desc_eq_filters; [done..|].
  intros k. by rewrite F1, F2.
Qed.

Lemma stable_sort_of_sort_desc l s : stable_sort_of l s → s = sort_desc key l.
Proof. intros H. eapply stable_sort_desc_unique; [done | apply sort_desc_stable]. Qed.

(** Lists that agree on the order of equal keys have the same sort. *)
Lemma sort_desc_ext_filters l1 l2 :
  (∀ k, filter (fun x => key x = k) l1 = filter (fun x => key x = k) l2) →
  sort_desc key l1 = sort_desc key l2.
Proof.
  intros Hf. apply sorted_desc_eq_filters; [apply sort_desc_sorted..|].
  intros k. by rewrite !filter_key_sort_desc.
Qed.

End SortFacts.

(** ** Pyramid Analyzer *)

Lemma scaled_magnification_spec r0 ri :
  scaled_magnification r0 ri = effective_magnification r0 ri.
Proof. reflexivity. Qed.

Lemma result_bind_ret {A B} (f : A → result B) a : Ok a ≫= f = f a.
Proof. reflexivity. Qed.

Lemma mapM_result_cons {A B} (f : A → result B) x l :
  mapM f (x :: l) = y ← f x; k ← mapM f l; mret (y :: k).
Proof. reflexivity. Qed.

(** The index loop over the part [l2] of the list that is still to be
    visited appends the levels of the square-tiled records of [l2]. *)
Lemma analyze_loop_spec r0 l1 l2 acc :
  head (l1 ++ l2) = Some r0 →
  analyze_loop (l1 ++ l2) (seq (length l1) (length l2)) acc
  = rest ← mapM (PyramidLevel r0) (List.filter is_square l2); mret (acc ++ rest).
Proof.
  revert l1 acc. induction l2 as [|r l2 IH]; intros l1 acc Hhd.
  - simpl. by rewrite app_nil_r.
  - cbn [length seq analyze_loop].
    rewrite getitem_app_length. cbn [mbind result_bind].
    assert (getitem (l1 ++ r :: l2) 0 = Ok r0) as ->.
    { apply getitem_lookup. by rewrite <- head_lookup. }
    cbn [List.filter]. unfold is_square at 1.
    specialize (IH (l1 ++ [r])). rewrite length_app, Nat.add_1_r in IH.
    rewrite <- (assoc_L (++)) in IH. simpl in IH.
    destruct (img.icols r =? img.irows r)%Z.
    + rewrite mapM_result_cons, result_bind_ret, scaled_magnification_spec.
      unfold PyramidLevel in *.
      destruct (effective_magnification r0 r) as [m|e]; [|reflexivity].
      rewrite !result_bind_ret, IH by done.
      destruct (mapM _ _) as [rest|e]; [|reflexivity].
      rewrite !result_bind_ret. unfold mret, result_ret.
      by rewrite <- (assoc_L (++)).
    + by rewrite IH.
Qed.

Lemma analyze_image_list_sorted l :
  analyze_image_list l
  = (sort_desc img.size l, levels_of_sorted (sort_desc img.size l)).
Proof.
  unfold analyze_image_list. cbv zeta. f_equal.
  generalize (sort_desc img.size l). intros [|r0 s]; [done|].
  etrans; [apply (analyze_loop_spec r0 [] (r0 :: s) [] eq_refl)|].
  unfold levels_of_sorted. by destruct (mapM _ _).
Qed.

Lemma stable_sort_of_Permutation {A} (key : A → Z) l s :
  stable_sort_of key l s → s ≡ₚ l.
Proof.
  intros ->%stable_sort_of_sort_desc. apply sort_desc_Permutation.
Qed.

Lemma filter_is_square_elem r l :
  r ∈ l → is_square r = true → ∃ r' l', List.filter is_square l = r' :: l'.
Proof.
  intros Hin Hsq.
  destruct (List.filter is_square l) as [|r' l'] eqn:E; [|eauto].
  assert (In r (List.filter is_square l)) as Hc.
  { apply filter_In. split; [by apply list_elem_of_In | done]. }
  rewrite E in Hc. destruct Hc.
Qed.

Lemma PyramidLevel_zero_base b r :
  img.cols b = 0%Z → PyramidLevel b r = Raise ZeroDivisionError.
Proof.
  intros Hb. unfold PyramidLevel, effective_magnification.
  by rewrite Hb, int_truediv_zero.
Qed.

Lemma PyramidLevel_base b :
  img.cols b ≠ 0%Z → F64.valid (img.mag b) = true → PyramidLevel b b = Ok b.
Proof.
  intros Hb Hv. unfold PyramidLevel, effective_magnification.
  rewrite int_truediv_self by done. simpl.
  rewrite mul_one_r by done. by destruct b.
Qed.

Lemma levels_of_sorted_zero_base base others r :
  img.cols base = 0%Z → r ∈ base :: others → is_square r = true →
  levels_of_sorted (base :: others) = Raise ZeroDivisionError.
Proof.
  intros Hb Hin Hsq.
  destruct (filter_is_square_elem r (base :: others) Hin Hsq) as (r' & l' & E).
  unfold levels_of_sorted. rewrite E.
  by rewrite mapM_result_cons, PyramidLevel_zero_base.
Qed.

Lemma levels_of_sorted_square_base base others :
  is_square base = true → img.cols base ≠ 0%Z → F64.valid (img.mag base) = true →
  levels_of_sorted (base :: others)
  = rest ← mapM (PyramidLevel base) (List.filter is_square others); mret (base :: rest).
Proof.
  intros Hsq Hb Hv. unfold levels_of_sorted. cbn [List.filter]. rewrite Hsq.
  by rewrite mapM_result_cons, PyramidLevel_base.
Qed.

(** ** Magnification Matcher *)

Lemma within_tolerance_near targetMag t tol r :
  py_float targetMag = Ok t →
  within_tolerance targetMag tol r = Ok (near t tol r).
Proof. unfold within_tolerance. intros ->. reflexivity. Qed.

(** The matcher never raises for a target that [float] accepts, and its
    answer splits the list at the first level within tolerance. *)
Lemma match_loop_spec targetMag t tol l1 l2 :
  py_float targetMag = Ok t →
  ∃ m, match_loop (l1 ++ l2) targetMag tol (seq (length l1) (length l2)) = Ok m ∧
    match m with
    | Some level => ∃ before after, l2 = before ++ level :: after ∧
        Forall (fun x => near t tol x = false) before ∧ near t tol level = true
    | None => Forall (fun x => near t tol x = false) l2
    end.
Proof.
  intros Ht. revert l1. induction l2 as [|r l2 IH]; intros l1.
  - exists None. split; [done | constructor].
  - cbn [length seq match_loop]. rewrite getitem_app_length, result_bind_ret.
    rewrite (within_tolerance_near _ _ _ _ Ht), result_bind_ret.
    destruct (near t tol r) eqn:Hr.
    + exists (Some r). split; [done|]. exists [], l2. by repeat split.
    + specialize (IH (l1 ++ [r])).
      rewrite length_app, Nat.add_1_r, <- (assoc_L (++)) in IH. simpl in IH.
      destruct IH as (m & -> & Hm). exists m. split; [done|].
      destruct m as [level|].
      * destruct Hm as (before & after & -> & Hb & Hl).
        exists (r :: before), after. split; [done|]. split; [by constructor | done].
      * by constructor.
Qed.

Lemma at_boundary_not_near t tol level :
  at_boundary t tol level = true → near t tol level = false.
Proof. apply eqb_not_ltb. Qed.

(** Discharge [same_tie_order] and [stable_sort_of] on explicit lists. *)
Ltac solve_filters :=
  intros ?; rewrite ?filter_cons, ?filter_nil;
  repeat case_decide; simpl in *; first [congruence | lia].

Ltac solve_stable_sort :=
  split; [ repeat constructor; unfold desc; simpl; lia | solve_filters ].

(** ** Claims on the Analyzer and the Matcher *)

(** C2: the Analyzer leaves the caller's list as the stable descending
    sort of the input by ['size'] and returns the square-tiled records of
    that sorted list, in its order, each with
    [base.mag * (record.cols / base.cols)] for the base at index 0 of the
    whole sorted list, square-tiled or not. *)
Theorem analyzer_sorts_filters_scales (records sorted : list img.t) :
  stable_sort_of img.size records sorted →
  analyze_image_list records = (sorted, levels_of_sorted sorted).
Proof.
  intros Hs. rewrite analyze_image_list_sorted.
  by rewrite <- (stable_sort_of_sort_desc img.size records sorted Hs).
Qed.

Lemma analyzer_sorts_filters_scales_witness :
  stable_sort_of img.size [slide_10x; slide_label; slide_40x]
                          [slide_40x; slide_label; slide_10x] ∧
  analyze_image_list [slide_10x; slide_label; slide_40x]
  = ([slide_40x; slide_label; slide_10x],
     levels_of_sorted [slide_40x; slide_label; slide_10x]).
Proof.
  assert (stable_sort_of img.size [slide_10x; slide_label; slide_40x]
            [slide_40x; slide_label; slide_10x]) as Hs by solve_stable_sort.
  split; [exact Hs|]. exact (analyzer_sorts_filters_scales _ _ Hs).
Defined.

(** C4: when the first record of the size-sorted list has ['cols'] equal
    to [0] and some record is square-tiled, the Analyzer raises
    [ZeroDivisionError]; it returns no list, so none with an infinity or a
    NaN in it. *)
Theorem analyzer_zero_columns_base (records : list img.t) (base : img.t)
    (others : list img.t) :
  stable_sort_of img.size records (base :: others) →
  img.cols base = 0%Z →
  (∃ r, r ∈ records ∧ img.icols r = img.irows r) →
  (analyze_image_list records).2 = Raise ZeroDivisionError.
Proof.
  intros Hs Hb (r & Hin & Hsq).
  rewrite analyze_image_list_sorted, <- (stable_sort_of_sort_desc _ _ _ Hs).
  cbn [snd]. apply (levels_of_sorted_zero_base base others r Hb).
  - by rewrite (stable_sort_of_Permutation _ _ _ Hs).
  - unfold is_square. by apply Z.eqb_eq.
Qed.

Lemma analyzer_zero_columns_base_witness :
  stable_sort_of img.size [slide_10x; slide_flat] [slide_flat; slide_10x] ∧
  img.cols slide_flat = 0%Z ∧
  (∃ r, r ∈ [slide_10x; slide_flat] ∧ img.icols r = img.irows r) ∧
  (analyze_image_list [slide_10x; slide_flat]).2 = Raise ZeroDivisionError.
Proof.
  assert (stable_sort_of img.size [slide_10x; slide_flat] [slide_flat; slide_10x])
    as Hs by solve_stable_sort.
  assert (∃ r, r ∈ [slide_10x; slide_flat] ∧ img.icols r = img.irows r) as Hsq.
  { exists slide_10x. split; [left | reflexivity]. }
  split; [exact Hs|]. split; [reflexivity|]. split; [exact Hsq|].
  exact (analyzer_zero_columns_base _ slide_flat _ Hs eq_refl Hsq).
Defined.

(** C6: when the first record of the size-sorted list is square-tiled and
    has nonzero ['cols'], the Analyzer's output starts with that record
    unchanged: its ['mag'] is its own lens power, the same binary64 value
    (an infinite lens power stays infinite, a NaN stays NaN); the records
    after it are resolved against it. *)
Theorem base_level_keeps_lens_power (records : list img.t) (base : img.t)
    (others : list img.t) :
  stable_sort_of img.size records (base :: others) →
  img.icols base = img.irows base →
  img.cols base ≠ 0%Z →
  F64.valid (img.mag base) = true →
  (analyze_image_list records).2
  = (rest ← mapM (PyramidLevel base) (List.filter is_square others);
     mret (base :: rest))
  ∧ ∀ out, (analyze_image_list records).2 = Ok out →
      ∃ level, head out = Some level ∧
        img.filename level = img.filename base ∧ img.mag level = img.mag base.
Proof.
  intros Hs Hsq Hb Hv.
  assert ((analyze_image_list records).2
          = (rest ← mapM (PyramidLevel base) (List.filter is_square others);
             mret (base :: rest))) as E.
  { rewrite analyze_image_list_sorted, <- (stable_sort_of_sort_desc _ _ _ Hs).
    cbn [snd]. apply levels_of_sorted_square_base; [|done..].
    unfold is_square. by apply Z.eqb_eq. }
  split; [exact E|].
  intros out Hout. rewrite E in Hout.
  apply result_bind_Ok in Hout as (rest & _ & [= <-]).
  by exists base.
Qed.

Lemma base_level_keeps_lens_power_witness :
  stable_sort_of img.size [slide_10x; slide_label; slide_40x]
                          [slide_40x; slide_label; slide_10x] ∧
  img.icols slide_40x = img.irows slide_40x ∧
  img.cols slide_40x ≠ 0%Z ∧
  F64.valid (img.mag slide_40x) = true ∧
  (analyze_image_list [slide_10x; slide_label; slide_40x]).2
  = (rest ← mapM (PyramidLevel slide_40x)
              (List.filter is_square [slide_label; slide_10x]);
     mret (slide_40x :: rest))
  ∧ ∀ out, (analyze_image_list [slide_10x; slide_label; slide_40x]).2 = Ok out →
      ∃ level, head out = Some level ∧
        img.filename level = img.filename slide_40x ∧
        img.mag level = img.mag slide_40x.
Proof.
  assert (stable_sort_of img.size [slide_10x; slide_label; slide_40x]
            [slide_40x; slide_label; slide_10x]) as Hs by solve_stable_sort.
  assert (img.cols slide_40x ≠ 0%Z) as Hc by by vm_compute.
  split; [exact Hs|]. split; [reflexivity|]. split; [exact Hc|].
  split; [reflexivity|].
  exact (base_level_keeps_lens_power _ slide_40x _ Hs eq_refl Hc eq_refl).
Defined.

(** C5, as the claim states it, fails: two records of equal ['size'] come
    out in the order in which they went in, and the first of them is the
    base. *)
Lemma analyzer_order_dependent_on_ties :
  [slide_40x; slide_twin] ≡ₚ [slide_twin; slide_40x] ∧
  (analyze_image_list [slide_40x; slide_twin]).2
  = Ok [slide_40x; img.mk "twin.dcm" 1000000 f40 2000 500 100 100] ∧
  (analyze_image_list [slide_twin; slide_40x]).2
  = Ok [slide_twin; img.mk "level0.dcm" 1000000 f5 1000 1000 500 500] ∧
  (analyze_image_list [slide_40x; slide_twin]).2
  ≠ (analyze_image_list [slide_twin; slide_40x]).2.
Proof.
  split; [apply Permutation_swap|]. split; [reflexivity|]. split; [reflexivity|].
  by vm_compute.
Qed.

(** C5, amended: two orderings of the same records that list the records
    of equal ['size'] in the same relative order (so every two orderings of
    records with pairwise distinct ['size']) give the same sorted list and
    the same output. *)
Theorem analyzer_order_independent_up_to_ties (l1 l2 : list img.t) :
  l1 ≡ₚ l2 →
  same_tie_order l1 l2 →
  analyze_image_list l1 = analyze_image_list l2.
Proof.
  intros _ Hties. rewrite !analyze_image_list_sorted.
  by rewrite (sort_desc_ext_filters img.size l1 l2 Hties).
Qed.

Lemma analyzer_order_independent_up_to_ties_witness :
  [slide_10x; slide_label; slide_40x] ≡ₚ [slide_label; slide_40x; slide_10x] ∧
  same_tie_order [slide_10x; slide_label; slide_40x]
                 [slide_label; slide_40x; slide_10x] ∧
  analyze_image_list [slide_10x; slide_label; slide_40x]
  = analyze_image_list [slide_label; slide_40x; slide_10x].
Proof.
  assert ([slide_10x; slide_label; slide_40x] ≡ₚ [slide_label; slide_40x; slide_10x])
    as Hp by solve_Permutation.
  assert (same_tie_order [slide_10x; slide_label; slide_40x]
            [slide_label; slide_40x; slide_10x]) as Ht by solve_filters.
  split; [exact Hp|]. split; [exact Ht|].
  exact (analyzer_order_independent_up_to_ties _ _ Hp Ht).
Defined.

Lemma NoDup_fmap_inj {A B} (f : A → B) (l : list A) x y :
  NoDup (f <$> l) → x ∈ l → y ∈ l → f x = f y → x = y.
Proof.
  intros Hnd [i Hi]%list_elem_of_lookup_1 [j Hj]%list_elem_of_lookup_1 Hf.
  assert (i = j) as ->; [|congruence].
  apply (NoDup_lookup (f <$> l) i j (f x) Hnd).
  - by rewrite list_lookup_fmap, Hi.
  - by rewrite list_lookup_fmap, Hj, Hf.
Qed.

(** Records with pairwise distinct ['size'] have no ties. *)
Lemma same_tie_order_NoDup l1 l2 :
  l1 ≡ₚ l2 → NoDup (img.size <$> l1) → same_tie_order l1 l2.
Proof.
  intros Hp Hnd k.
  assert (∀ l, NoDup (img.size <$> l) →
            filter (fun r => img.size r = k) l
            = match list_find (fun r => img.size r = k) l with
              | Some (_, r) => [r]
              | None => []
              end) as Hone.
  { induction l as [|x l IH]; [done|]. intros [Hx Hl]%NoDup_cons.
    rewrite filter_cons. cbn [list_find]. case_decide as Hk.
    - f_equal. rewrite IH by done.
      destruct (list_find _ l) as [[i r]|] eqn:E; [|done].
      apply list_find_Some in E as (Hi & Hr & _).
      destruct Hx. apply list_elem_of_fmap. exists r.
      split; [congruence | by eapply list_elem_of_lookup_2].
    - rewrite IH by done. by destruct (list_find _ l) as [[??]|]. }
  assert (NoDup (img.size <$> l2)) as Hnd2 by by rewrite <- Hp.
  rewrite !Hone by done.
  destruct (list_find _ l1) as [[i r]|] eqn:E1,
           (list_find _ l2) as [[j r']|] eqn:E2.
  - apply list_find_Some in E1 as (Hi & Hr & _).
    apply list_find_Some in E2 as (Hj & Hr' & _).
    f_equal. apply list_elem_of_lookup_2 in Hi, Hj. rewrite Hp in Hi.
    eapply (NoDup_fmap_inj img.size l2); [done..|congruence].
  - apply list_find_Some in E1 as (Hi & Hr & _).
    apply list_find_None in E2. apply list_elem_of_lookup_2 in Hi.
    rewrite Hp in Hi. rewrite Forall_forall in E2. by destruct (E2 r Hi).
  - apply list_find_Some in E2 as (Hj & Hr' & _).
    apply list_find_None in E1. apply list_elem_of_lookup_2 in Hj.
    rewrite <- Hp in Hj. rewrite Forall_forall in E1. by destruct (E1 r' Hj).
  - done.
Qed.

(** C3: for a target that [float] accepts (every float, every [int] in
    range), the Matcher returns without raising; its answer is the first
    level, in list order, with [|mag - target| < tolerance], or [None]
    when no level is within tolerance, as for the empty list; a level whose
    distance to the target equals the tolerance is not within it. *)
Theorem matcher_first_within_tolerance (levels : list img.t)
    (targetMag : number) (target tolerance : float) :
  py_float targetMag = Ok target →
  (∃ m, return_magnitude_match levels targetMag tolerance = Ok m ∧
     match m with
     | Some level =>
         ∃ before after, levels = before ++ level :: after ∧
           Forall (fun x => near target tolerance x = false) before ∧
           near target tolerance level = true ∧
           at_boundary target tolerance level = false
     | None => Forall (fun x => near target tolerance x = false) levels
     end)
  ∧ (∀ level, at_boundary target tolerance level = true →
       near target tolerance level = false)
  ∧ return_magnitude_match [] targetMag tolerance = Ok None.
Proof.
  intros Ht. split; [|split; [apply at_boundary_not_near | done]].
  destruct (match_loop_spec targetMag target tolerance [] levels Ht)
    as (m & Hm & Hspec).
  exists m. split; [exact Hm|].
  destruct m as [level|]; [|done].
  destruct Hspec as (before & after & -> & Hb & Hl).
  exists before, after. repeat split; [done..|].
  destruct (at_boundary target tolerance level) eqn:E; [|done].
  apply at_boundary_not_near in E. congruence.
Qed.

Lemma matcher_first_within_tolerance_witness :
  py_float (IntNum 10) = Ok f10 ∧
  (∃ m, return_magnitude_match [slide_40x; slide_10x] (IntNum 10) f2 = Ok m ∧
     match m with
     | Some level =>
         ∃ before after, [slide_40x; slide_10x] = before ++ level :: after ∧
           Forall (fun x => near f10 f2 x = false) before ∧
           near f10 f2 level = true ∧ at_boundary f10 f2 level = false
     | None => Forall (fun x => near f10 f2 x = false) [slide_40x; slide_10x]
     end)
  ∧ (∀ level, at_boundary f10 f2 level = true → near f10 f2 level = false)
  ∧ return_magnitude_match [] (IntNum 10) f2 = Ok None.
Proof.
  split; [reflexivity|].
  apply (matcher_first_within_tolerance [slide_40x; slide_10x] (IntNum 10) f10 f2).
  reflexivity.
Defined.

(** ** File system *)

Lemma lookup_node_app n p q :
  lookup_node n (p ++ q) = lookup_node n p ≫= fun n' => lookup_node n' q.
Proof.
  revert n. induction p as [|c p IH]; intros n; simpl; [done|].
  destruct n as [|es]; [done|].
  destruct (entry c es); simpl; [apply IH | done].
Qed.

Lemma lookup_node_child r d es name :
  lookup_node r d = Some (Dir es) → lookup_node r (d ++ [name]) = entry name es.
Proof.
  intros H. rewrite lookup_node_app, H. simpl. by destruct (entry name es).
Qed.

Lemma entry_elem es name n :
  NoDup es.*1 → (name, n) ∈ es → entry name es = Some n.
Proof.
  induction es as [|[c m] es IH]; intros Hnd Hin.
  - by apply elem_of_nil in Hin.
  - apply NoDup_cons in Hnd as [Hc Hnd]. simpl.
    apply elem_of_cons in Hin as [[= <- <-]|Hin].
    + by rewrite String.eqb_refl.
    + destruct (String.eqb_spec name c) as [->|_]; [|by apply IH].
      destruct Hc. apply list_elem_of_fmap. by exists (c, n).
Qed.

Lemma resolve_join c a q : resolve c (path_join a (Rel q)) = resolve c a ++ q.
Proof. destruct a; simpl; [done | by rewrite (assoc_L (++))]. Qed.

(** ** Metadata Extractor and Pyramid Scanner *)

Lemma add_trace_nil w : add_trace w [] = w.
Proof. destruct w. unfold add_trace. simpl. by rewrite app_nil_r. Qed.

(** One extraction in the current directory: the values of the record on
    success; on any failure the diagnostic, and no exception. *)
Lemma extract_image_info_dicom_spec w es name n :
  lookup_node (root w) (cwd w) = Some (Dir es) →
  entry name es = Some n →
  extract_image_info_dicom name w =
    match record_of name n with
    | Some r => (Ok (Extracted (img.size r) (img.mag r) (img.cols r) (img.rows r)
                       (img.icols r) (img.irows r)), w)
    | None => (Ok ExtractionFailed,
               add_trace w [Print [Str "error extracting image metadata from:"; Str name]])
    end.
Proof.
  intros Hd He.
  unfold extract_image_info_dicom, try_except, dcmread, stat.
  unfold mbind, M_bind. cbn [resolve]. cbv beta.
  rewrite (lookup_node_child _ _ _ _ Hd), He.
  destruct n as [[ds|]|es']; [|done..].
  unfold record_of, record_of_dataset.
  destruct ds as [[mag|] [cols|] [rows|] [icols|] [irows|] at_]; done.
Qed.

Lemma scan_loop_spec es cands imageList goodImageCount w :
  lookup_node (root w) (cwd w) = Some (Dir es) →
  (∀ e, e ∈ cands → entry e.1 es = Some e.2 ∧ glob_match_star "dcm" e.1 = true) →
  scan_loop cands.*1 imageList goodImageCount w
  = (Ok (imageList ++ records_of cands,
         (goodImageCount + Z.of_nat (length (records_of cands)))%Z),
     add_trace w (scan_prints cands)).
Proof.
  revert imageList goodImageCount w.
  induction cands as [|[name n] cands IH]; intros imageList good w Hd Hc.
  - simpl. unfold mret, M_ret. rewrite app_nil_r, Z.add_0_r.
    by rewrite add_trace_nil.
  - destruct (Hc (name, n)) as [He Hg]; [left|]. simpl in He, Hg.
    assert (∀ e, e ∈ cands → entry e.1 es = Some e.2 ∧ glob_match_star "dcm" e.1 = true)
      as Hc' by (intros; apply Hc; by right).
    cbn [fmap list_fmap fst scan_loop].
    unfold mbind at 1, M_bind at 1, print at 1, emit at 1.
    unfold mbind at 1, M_bind at 1.
    rewrite (extract_image_info_dicom_spec _ es name n) by done.
    unfold records_of, scan_prints. cbn [omap list_omap mbind list_bind fst snd].
    rewrite Hg.
    fold (records_of cands). fold (scan_prints cands).
    destruct (record_of name n) as [r|] eqn:Hr.
    + rewrite IH by done. 
      assert (img.filename r = name) as Hn.
      { destruct n as [[ds|]|]; try done. unfold record_of, record_of_dataset in Hr.
        destruct (ObjectiveLensPower ds), (TotalPixelMatrixColumns ds),
          (TotalPixelMatrixRows ds), (Columns ds), (Rows ds); simplify_eq/=; done. }
      destruct r as [fn sz mg cl rw ic ir]; simpl in *; subst fn.
      rewrite <- (assoc_L (++)). cbn [app length].
      unfold add_trace. cbn [cwd root trace]. rewrite <- !(assoc_L (++)).
      by rewrite Nat2Z.inj_succ, <- Z.add_1_l, (assoc_L Z.add).
    + rewrite IH by done.
      unfold add_trace. cbn [cwd root trace]. by rewrite <- !(assoc_L (++)).
Qed.

Lemma filter_candidates_fst (f : string → bool) (es : list (string * node)) :
  List.filter f es.*1 = (List.filter (fun e => f e.1) es).*1.
Proof.
  induction es as [|[c n] es IH]; [done|].
  cbn [fmap list_fmap List.filter fst].
  destruct (f c); cbn [fmap list_fmap fst]; by rewrite <- IH.
Qed.

Lemma records_of_candidates es :
  records_of (List.filter (fun e => glob_match_star "dcm" e.1) es) = records_of es.
Proof.
  unfold records_of. induction es as [|[c n] es IH]; [done|]. cbn [List.filter fst].
  destruct (glob_match_star "dcm" c) eqn:E; cbn [omap list_omap fst snd]; rewrite E;
    [by rewrite <- IH | done].
Qed.

Lemma scan_prints_candidates es :
  scan_prints (List.filter (fun e => glob_match_star "dcm" e.1) es) = scan_prints es.
Proof.
  unfold scan_prints. induction es as [|[c n] es IH]; [done|]. cbn [List.filter fst].
  destruct (glob_match_star "dcm" c) eqn:E; cbn [mbind list_bind fst snd]; rewrite E;
    [by rewrite <- IH | done].
Qed.

(** The whole scan of an existing directory. *)
Lemma pydicom_extract_information_spec w basedir es :
  lookup_node (root w) (resolve (cwd w) basedir) = Some (Dir es) →
  NoDup es.*1 →
  pydicom_extract_information basedir w
  = (Ok (records_of es),
     World (resolve (cwd w) basedir) (root w)
       (trace w ++ scan_prints es ++
        [Print [Str "good image count:"; Int (Z.of_nat (length (records_of es)))]])).
Proof.
  intros Hd Hnd. unfold pydicom_extract_information.
  unfold mbind at 1, M_bind at 1, chdir at 1. rewrite Hd.
  unfold mbind at 1, M_bind at 1, glob_star at 1, stat at 1.
  unfold mbind at 1, M_bind at 1. cbn [cwd root resolve]. rewrite app_nil_r, Hd.
  unfold mret at 1, M_ret at 1. rewrite filter_candidates_fst.
  unfold mbind at 1, M_bind at 1.
  rewrite (scan_loop_spec es); [|done|].
  - rewrite records_of_candidates, scan_prints_candidates.
    unfold mbind, M_bind, print, emit, mret, M_ret, add_trace.
    cbn [cwd root trace]. by rewrite Z.add_0_l, <- (assoc_L (++)).
  - intros [c n] [Hin Hg]%list_elem_of_In%filter_In. split; [|done].
    apply entry_elem; [done | by apply list_elem_of_In].
Qed.

Lemma record_of_filename name n r : record_of name n = Some r → img.filename r = name.
Proof.
  destruct n as [[ds|]|]; try done. unfold record_of, record_of_dataset.
  destruct (ObjectiveLensPower ds), (TotalPixelMatrixColumns ds),
    (TotalPixelMatrixRows ds), (Columns ds), (Rows ds); simplify_eq/=; try done.
  by intros [= <-].
Qed.

Lemma record_of_populated name n r :
  record_of name n = Some r ↔
  ∃ ds, n = File (Some ds) ∧
    img.filename r = name ∧
    ObjectiveLensPower ds = Some (img.mag r) ∧
    TotalPixelMatrixColumns ds = Some (img.cols r) ∧
    TotalPixelMatrixRows ds = Some (img.rows r) ∧
    Columns ds = Some (img.icols r) ∧
    Rows ds = Some (img.irows r) ∧
    img.size r = (img.rows r * img.cols r)%Z.
Proof.
  split.
  - destruct n as [[ds|]|]; try done. unfold record_of, record_of_dataset.
    intros H. exists ds.
    destruct (ObjectiveLensPower ds), (TotalPixelMatrixColumns ds),
      (TotalPixelMatrixRows ds), (Columns ds), (Rows ds); simplify_eq/=; done.
  - intros (ds & -> & Hn & Hm & Hc & Hr & Hic & Hir & Hs).
    unfold record_of, record_of_dataset. rewrite Hm, Hc, Hr, Hic, Hir. simpl.
    destruct r; simpl in *. by subst.
Qed.

Lemma elem_of_records_of es r :
  r ∈ records_of es ↔
  ∃ n, (img.filename r, n) ∈ es ∧ glob_match_star "dcm" (img.filename r) = true ∧
       record_of (img.filename r) n = Some r.
Proof.
  unfold records_of. rewrite list_elem_of_omap. split.
  - intros ([c n] & Hin & Hr). simpl in Hr.
    destruct (glob_match_star "dcm" c) eqn:E; [|done].
    pose proof (record_of_filename _ _ _ Hr) as ->. eauto.
  - intros (n & Hin & Hg & Hr). exists (img.filename r, n). simpl.
    by rewrite Hg.
Qed.

(** ** Claims on the Scanner *)

(** C7: the scan of an existing directory returns and does not raise; an
    entry whose extraction fails leaves no record; every record returned
    has its seven fields from the one dataset of the candidate file that
    bears its name; an empty directory, and one where every extraction
    fails, give the empty list. *)
Theorem scanner_skips_failed_extractions (w : world) (basedir : pypath)
    (es : list (string * node)) :
  lookup_node (root w) (resolve (cwd w) basedir) = Some (Dir es) →
  NoDup es.*1 →
  ∃ imageList w',
    pydicom_extract_information basedir w = (Ok imageList, w') ∧
    (∀ name n, (name, n) ∈ es → record_of name n = None →
       ∀ r, r ∈ imageList → img.filename r ≠ name) ∧
    (∀ r, r ∈ imageList →
       ∃ ds, (img.filename r, File (Some ds)) ∈ es ∧
         ObjectiveLensPower ds = Some (img.mag r) ∧
         TotalPixelMatrixColumns ds = Some (img.cols r) ∧
         TotalPixelMatrixRows ds = Some (img.rows r) ∧
         Columns ds = Some (img.icols r) ∧
         Rows ds = Some (img.irows r) ∧
         img.size r = (img.rows r * img.cols r)%Z) ∧
    (∀ name n r, (name, n) ∈ es → glob_match_star "dcm" name = true →
       record_of name n = Some r → r ∈ imageList) ∧
    (es = [] → imageList = []) ∧
    ((∀ name n, (name, n) ∈ es → record_of name n = None) → imageList = []).
Proof.
  intros Hd Hnd. eexists (records_of es), _.
  split; [by apply pydicom_extract_information_spec|].
  split; [|split; [|split; [|split]]].
  - intros name n Hin Hfail r (n' & Hin' & _ & Hr)%elem_of_records_of Hname.
    rewrite Hname in Hin', Hr.
    pose proof (entry_elem _ _ _ Hnd Hin) as E.
    rewrite (entry_elem _ _ _ Hnd Hin') in E. congruence.
  - intros r (n & Hin & _ & Hr)%elem_of_records_of.
    apply record_of_populated in Hr as (ds & -> & _ & H).
    by exists ds.
  - intros name n r Hin Hg Hr. apply elem_of_records_of.
    pose proof (record_of_filename _ _ _ Hr) as ->. eauto.
  - by intros ->.
  - intros Hfail. destruct (records_of es) as [|r l] eqn:E; [done|].
    assert (r ∈ records_of es) as (n & Hin & _ & Hr)%elem_of_records_of
      by (rewrite E; left).
    by rewrite (Hfail _ _ Hin) in Hr.
Qed.

Ltac by_decision := apply (bool_decide_unpack _); vm_compute; exact I.

Lemma scanner_skips_failed_extractions_witness :
  lookup_node (root sample_world) (resolve (cwd sample_world) (Abs ["data"]))
  = Some (Dir slide_entries) ∧
  NoDup slide_entries.*1 ∧
  ∃ imageList w',
    pydicom_extract_information (Abs ["data"]) sample_world = (Ok imageList, w') ∧
    (∀ name n, (name, n) ∈ slide_entries → record_of name n = None →
       ∀ r, r ∈ imageList → img.filename r ≠ name) ∧
    (∀ r, r ∈ imageList →
       ∃ ds, (img.filename r, File (Some ds)) ∈ slide_entries ∧
         ObjectiveLensPower ds = Some (img.mag r) ∧
         TotalPixelMatrixColumns ds = Some (img.cols r) ∧
         TotalPixelMatrixRows ds = Some (img.rows r) ∧
         Columns ds = Some (img.icols r) ∧
         Rows ds = Some (img.irows r) ∧
         img.size r = (img.rows r * img.cols r)%Z) ∧
    (∀ name n r, (name, n) ∈ slide_entries → glob_match_star "dcm" name = true →
       record_of name n = Some r → r ∈ imageList) ∧
    (slide_entries = [] → imageList = []) ∧
    ((∀ name n, (name, n) ∈ slide_entries → record_of name n = None) → imageList = []).
Proof.
  assert (NoDup slide_entries.*1) as Hnd by by_decision.
  split; [reflexivity|]. split; [exact Hnd|].
  exact (scanner_skips_failed_extractions sample_world (Abs ["data"]) slide_entries
           eq_refl Hnd).
Defined.

(** C8, as the claim states it, fails: the scan leaves the process in the
    directory it scanned, and for a relative path its result depends on
    the directory the process was in. *)
Lemma scanner_changes_working_directory :
  cwd sample_world = ["home"] ∧
  cwd (pydicom_extract_information (Abs ["data"]) sample_world).2 = ["data"] ∧
  cwd (pydicom_extract_information (Abs ["data"]) sample_world).2 ≠ cwd sample_world ∧
  (pydicom_extract_information (Rel ["data"]) sample_world).1
  = Raise FileNotFoundError ∧
  (pydicom_extract_information (Rel ["data"])
     {| cwd := []; root := sample_root; trace := [] |}).1
  = Ok (records_of slide_entries).
Proof. repeat split; by vm_compute. Qed.

(** C8, amended: the scan of an existing directory moves the process's
    current working directory to that directory ([os.chdir]) and leaves it
    there, appends to standard output, and leaves the file system as it
    was; for an absolute path the records returned depend on the file
    system alone, not on the working directory before the call. *)
Theorem scanner_moves_to_scanned_directory (w : world) (basedir : pypath)
    (es : list (string * node)) :
  lookup_node (root w) (resolve (cwd w) basedir) = Some (Dir es) →
  NoDup es.*1 →
  ∃ w', pydicom_extract_information basedir w = (Ok (records_of es), w') ∧
    cwd w' = resolve (cwd w) basedir ∧
    root w' = root w ∧
    (∃ out, trace w' = trace w ++ out) ∧
    (∀ p w2, basedir = Abs p → root w2 = root w →
       (pydicom_extract_information basedir w2).1 = Ok (records_of es)).
Proof.
  intros Hd Hnd. eexists.
  split; [by apply pydicom_extract_information_spec|]. cbn [cwd root trace].
  split; [done|]. split; [done|]. split; [by eexists|].
  intros p w2 -> Hroot.
  rewrite (pydicom_extract_information_spec w2 (Abs p) es); [done| |done].
  by rewrite Hroot.
Qed.

Lemma scanner_moves_to_scanned_directory_witness :
  lookup_node (root sample_world) (resolve (cwd sample_world) (Abs ["data"]))
  = Some (Dir slide_entries) ∧
  NoDup slide_entries.*1 ∧
  ∃ w', pydicom_extract_information (Abs ["data"]) sample_world
        = (Ok (records_of slide_entries), w') ∧
    cwd w' = ["data"] ∧
    root w' = root sample_world ∧
    (∃ out, trace w' = trace sample_world ++ out) ∧
    (∀ p w2, Abs ["data"] = Abs p → root w2 = root sample_world →
       (pydicom_extract_information (Abs ["data"]) w2).1
       = Ok (records_of slide_entries)).
Proof.
  assert (NoDup slide_entries.*1) as Hnd by by_decision.
  split; [reflexivity|]. split; [exact Hnd|].
  exact (scanner_moves_to_scanned_directory sample_world (Abs ["data"]) slide_entries
           eq_refl Hnd).
Defined.

(** ** Strings *)

Lemma string_length_append (s t : string) :
  String.length (s +:+ t) = String.length s + String.length t.
Proof. induction s as [|c s IH]; simpl; [done | by rewrite IH]. Qed.

Lemma substring_all (s : string) : String.substring 0 (String.length s) s = s.
Proof. induction s as [|c s IH]; simpl; [done | by rewrite IH]. Qed.

Lemma substring_skip (pre s : string) n :
  String.substring (String.length pre) n (pre +:+ s) = String.substring 0 n s.
Proof. induction pre as [|c pre IH]; simpl; [done | apply IH]. Qed.

Lemma substring_split (s : string) n :
  n ≤ String.length s →
  s = String.substring 0 n s +:+ String.substring n (String.length s - n) s.
Proof.
  revert n. induction s as [|c s IH]; intros n Hn.
  - simpl in *. by replace n with 0 by lia.
  - destruct n as [|n]; simpl.
    + by rewrite substring_all.
    + change (String c s = String c (String.substring 0 n s +:+
                String.substring n (String.length s - n) s)).
      f_equal. apply IH. simpl in Hn. lia.
Qed.

(** [s.endswith(suffix)] holds exactly when [s] is some string followed by
    [suffix]. *)
Lemma endswith_spec (s suffix : string) :
  endswith s suffix = true ↔ ∃ stem, s = stem +:+ suffix.
Proof.
  unfold endswith. rewrite andb_true_iff, Nat.leb_le, String.eqb_eq. split.
  - intros [Hle Hsub].
    exists (String.substring 0 (String.length s - String.length suffix) s).
    pose proof (substring_split s (String.length s - String.length suffix)
                  ltac:(lia)) as E.
    replace (String.length s - (String.length s - String.length suffix))
      with (String.length suffix) in E by lia.
    by rewrite Hsub in E.
  - intros [stem ->]. rewrite string_length_append. split; [lia|].
    replace (String.length stem + String.length suffix - String.length suffix)
      with (String.length stem) by lia.
    by rewrite substring_skip, substring_all.
Qed.

(** [s.startswith(".")] holds exactly when the first character is a dot. *)
Lemma startswith_dot_spec (s : string) :
  startswith s "." = true ↔ ∃ rest, s = "." +:+ rest.
Proof.
  unfold startswith. destruct s as [|c s]; cbn [String.prefix].
  - split; [done | by intros [? ?]].
  - destruct (Ascii.ascii_dec "."%char c) as [<-|Hne].
    + split; [by exists s | by destruct s].
    + split; [done | intros [rest [= Hc _]]; done].
Qed.

(** The names that [glob('*dcm')] keeps. *)
Lemma glob_match_star_dcm_spec (name : string) :
  glob_match_star "dcm" name = true ↔
  (∃ stem, name = stem +:+ "dcm") ∧ ¬ ∃ rest, name = "." +:+ rest.
Proof.
  unfold glob_match_star.
  rewrite andb_true_iff, negb_true_iff, endswith_spec, <- startswith_dot_spec.
  split; intros [H1 H2].
  - split; [done|]. by rewrite H1.
  - split; [|done]. by destruct (startswith name ".").
Qed.

(** ** Directory-shape probe *)

Lemma scanSourceDir_loop_spec w input_dir es ds a b :
  lookup_node (root w) (resolve (cwd w) input_dir) = Some (Dir es) →
  (∀ e, e ∈ ds → entry e.1 es = Some e.2) →
  scanSourceDir_loop input_dir ds.*1 a b w
  = (Ok (a && forallb flat_entry ds, b && forallb folder_entry ds), w).
Proof.
  intros Hd. revert a b. induction ds as [|[d n] ds IH]; intros a b He.
  - simpl. by rewrite !andb_true_r.
  - pose proof (He (d, n) ltac:(left)) as Hdn. simpl in Hdn.
    cbn [fmap list_fmap fst scanSourceDir_loop].
    unfold mbind at 1, M_bind at 1, isfile at 1, mbind at 1, M_bind at 1, stat at 1.
    rewrite resolve_join, (lookup_node_child _ _ _ _ Hd).
    rewrite Hdn. cbn [snd mret M_ret].
    unfold mbind at 1, M_bind at 1, isdir at 1, mbind at 1, M_bind at 1, stat at 1.
    rewrite resolve_join, (lookup_node_child _ _ _ _ Hd).
    rewrite Hdn. cbn [snd mret M_ret].
    rewrite IH by (intros; apply He; by right).
    cbn [forallb]. unfold flat_entry at 2, folder_entry at 2. cbn [fst snd].
    destruct n as [c|es']; cbn [negb orb]; [destruct (endswith d ".dcm")|];
      cbn [negb]; by rewrite ?andb_false_r, ?andb_true_r.
Qed.

Lemma scanSourceDir_spec w input_dir es :
  lookup_node (root w) (resolve (cwd w) input_dir) = Some (Dir es) →
  NoDup es.*1 →
  ∃ w', scanSourceDir input_dir w
        = (Ok (if forallb flat_entry es then FLAT
               else if forallb folder_entry es then SERIES else UNKNOWN), w') ∧
    cwd w' = cwd w ∧ root w' = root w.
Proof.
  intros Hd Hnd. unfold scanSourceDir.
  unfold mbind at 1, M_bind at 1, listdir at 1, mbind at 1, M_bind at 1, stat at 1.
  rewrite Hd. cbn [mret M_ret].
  unfold mbind at 1, M_bind at 1.
  rewrite (scanSourceDir_loop_spec w input_dir es es) by
    (try done; intros [c n] Hin; by apply entry_elem).
  cbn [andb].
  destruct (forallb flat_entry es); [by eexists|].
  destruct (forallb folder_entry es); by eexists.
Qed.

Lemma flat_entry_spec name n :
  flat_entry (name, n) = true ↔ (∃ c, n = File c) ∧ ∃ stem, name = stem +:+ ".dcm".
Proof.
  unfold flat_entry. cbn [fst snd]. destruct n as [c|es].
  - rewrite endswith_spec. split; [eauto | by intros [_ ?]].
  - split; [done | by intros [[? ?] _]].
Qed.

(** ** Claims on the candidate filter *)

(** C10, as the claim states it, fails: a regular file whose name ends in
    [dcm] but begins with a dot is not scanned, although its header can be
    extracted. *)
Lemma hidden_file_is_no_candidate :
  (".hidden.dcm", File (Some header_10x)) ∈ slide_entries ∧
  endswith ".hidden.dcm" "dcm" = true ∧
  is_Some (record_of ".hidden.dcm" (File (Some header_10x))) ∧
  ∃ imageList,
    (pydicom_extract_information (Abs ["data"]) sample_world).1 = Ok imageList ∧
    ".hidden.dcm" ∉ img.filename <$> imageList.
Proof.
  split; [apply list_elem_of_In; simpl; tauto|].
  split; [reflexivity|]. split; [by eexists|].
  eexists. split; [by vm_compute|]. by_decision.
Qed.

(** C10, amended: the Scanner's candidates are the entries whose name ends
    in the three characters [dcm] and does not begin with a dot, with or
    without a dot before [dcm]; the directory-shape probe answers [FLAT]
    exactly when every entry is a regular file whose name ends in [.dcm];
    the two filters differ in both directions. *)
Theorem candidate_filter_and_shape_probe (w : world) (input_dir : pypath)
    (es : list (string * node)) :
  lookup_node (root w) (resolve (cwd w) input_dir) = Some (Dir es) →
  NoDup es.*1 →
  (∀ name, glob_match_star "dcm" name = true ↔
     (∃ stem, name = stem +:+ "dcm") ∧ ¬ ∃ rest, name = "." +:+ rest) ∧
  (∀ w1, cwd w1 = resolve (cwd w) input_dir → root w1 = root w →
     glob_star "dcm" w1 = (Ok (List.filter (glob_match_star "dcm") es.*1), w1)) ∧
  ((∃ w', scanSourceDir input_dir w = (Ok FLAT, w')) ↔
     ∀ name n, (name, n) ∈ es →
       (∃ c, n = File c) ∧ ∃ stem, name = stem +:+ ".dcm") ∧
  (glob_match_star "dcm" "slidedcm" = true ∧ endswith "slidedcm" ".dcm" = false) ∧
  (glob_match_star "dcm" ".hidden.dcm" = false ∧ endswith ".hidden.dcm" ".dcm" = true).
Proof.
  intros Hd Hnd.
  split; [apply glob_match_star_dcm_spec|].
  split.
  { intros w1 Hc Hr. unfold glob_star, mbind, M_bind, stat. cbn [resolve].
    by rewrite app_nil_r, Hc, Hr, Hd. }
  split; [|done].
  destruct (scanSourceDir_spec w input_dir es Hd Hnd) as (w' & Hs & _).
  rewrite Hs. split.
  - intros [w'' [= Hflat _]] name n Hin. apply flat_entry_spec.
    destruct (forallb flat_entry es) eqn:E.
    + rewrite forallb_forall in E. apply (E (name, n)). by apply list_elem_of_In.
    + by destruct (forallb folder_entry es).
  - intros Hall. exists w'. 
    assert (forallb flat_entry es = true) as ->; [|done].
    apply forallb_forall. intros [name n] Hin%list_elem_of_In.
    apply flat_entry_spec, Hall, Hin.
Qed.

Lemma candidate_filter_and_shape_probe_witness :
  lookup_node (root sample_world) (resolve (cwd sample_world) (Abs ["data"]))
  = Some (Dir slide_entries) ∧
  NoDup slide_entries.*1 ∧
  (∀ name, glob_match_star "dcm" name = true ↔
     (∃ stem, name = stem +:+ "dcm") ∧ ¬ ∃ rest, name = "." +:+ rest) ∧
  (∀ w1, cwd w1 = ["data"] → root w1 = root sample_world →
     glob_star "dcm" w1
     = (Ok (List.filter (glob_match_star "dcm") slide_entries.*1), w1)) ∧
  ((∃ w', scanSourceDir (Abs ["data"]) sample_world = (Ok FLAT, w')) ↔
     ∀ name n, (name, n) ∈ slide_entries →
       (∃ c, n = File c) ∧ ∃ stem, name = stem +:+ ".dcm") ∧
  (glob_match_star "dcm" "slidedcm" = true ∧ endswith "slidedcm" ".dcm" = false) ∧
  (glob_match_star "dcm" ".hidden.dcm" = false ∧ endswith ".hidden.dcm" ".dcm" = true).
Proof.
  assert (NoDup slide_entries.*1) as Hnd by by_decision.
  split; [reflexivity|]. split; [exact Hnd|].
  exact (candidate_filter_and_shape_probe sample_world (Abs ["data"]) slide_entries
           eq_refl Hnd).
Defined.

(** ** The Analyzer on shared objects *)

Lemma insert_desc_fmap {A B} (f : A → B) (key : B → Z) x l :
  insert_desc key (f x) (f <$> l) = f <$> insert_desc (key ∘ f) x l.
Proof.
  induction l as [|y l IH]; [done|]. cbn [fmap list_fmap insert_desc compose].
  destruct (key (f x) <? key (f y))%Z; [|done].
  cbn [fmap list_fmap]. f_equal. apply IH.
Qed.

Lemma sort_desc_fmap {A B} (f : A → B) (key : B → Z) l :
  sort_desc key (f <$> l) = f <$> sort_desc (key ∘ f) l.
Proof.
  induction l as [|x l IH]; [done|]. cbn [fmap list_fmap sort_desc foldr].
  fold (sort_desc key (f <$> l)). fold (sort_desc (key ∘ f) l).
  by rewrite IH, insert_desc_fmap.
Qed.

Lemma getitem_fmap {A B} (f : A → B) (l : list A) i :
  getitem (f <$> l) i = f <$> getitem l i.
Proof. unfold getitem. rewrite list_lookup_fmap. by destruct (l !! i). Qed.

Lemma getitem_deref h l i : getitem (deref h l) i = (h !!!.) <$> getitem l i.
Proof. apply getitem_fmap. Qed.

Lemma getitem_elem_of {A} (l : list A) i x : getitem l i = Ok x → x ∈ l.
Proof.
  unfold getitem. destruct (l !! i) eqn:E; [|done].
  intros [= <-]. by eapply list_elem_of_lookup_2.
Qed.

Lemma preserves_refl h : preserves h h.
Proof. by intros x r. Qed.

Lemma preserves_total h0 h x :
  preserves h0 h → is_Some (h0 !! x) → h !!! x = h0 !!! x.
Proof.
  intros Hp [r Hr]. rewrite (lookup_total_correct _ _ _ Hr).
  apply lookup_total_correct. by apply Hp.
Qed.

Lemma alloc_fresh h r : h !! (alloc h r).1 = None.
Proof.
  unfold alloc. cbn [fst]. apply not_elem_of_dom, is_fresh.
Qed.

Lemma alloc_preserves h r : preserves h (alloc h r).2.
Proof.
  intros x r' Hx. unfold alloc. cbn [snd]. rewrite lookup_insert_ne; [done|].
  intros <-. pose proof (alloc_fresh h r) as Hf. unfold alloc in Hf.
  cbn [fst] in Hf. congruence.
Qed.

Lemma alloc_lookup h r : (alloc h r).2 !! (alloc h r).1 = Some r.
Proof. unfold alloc. cbn [fst snd]. apply lookup_insert_eq. Qed.

(** The loop on references: it keeps the dictionaries that exist, computes
    what the loop on values computes, and returns references to new
    dictionaries only. *)
Lemma analyze_loop_ref_spec h0 imageList idx :
  Forall (fun x => is_Some (h0 !! x)) imageList →
  ∀ h tiledImages,
    preserves h0 h →
    NoDup tiledImages →
    Forall (fun x => h0 !! x = None ∧ is_Some (h !! x)) tiledImages →
    ∃ h' res, analyze_loop_ref h imageList idx tiledImages = (h', res) ∧
      preserves h h' ∧
      analyze_loop (deref h0 imageList) idx (deref h tiledImages)
      = deref h' <$> res ∧
      match res with
      | Ok tiled => NoDup tiled ∧
                    Forall (fun x => h0 !! x = None ∧ is_Some (h' !! x)) tiled
      | Raise _ => True
      end.
Proof.
  intros Hwf. induction idx as [|i idx IH]; intros h acc Hp Hnd Hnew.
  - exists h, (Ok acc). by repeat split; try apply preserves_refl.
  - cbn [analyze_loop_ref analyze_loop]. rewrite !getitem_deref.
    destruct (getitem imageList i) as [xi|e] eqn:Ei; cbn [fmap result_fmap];
      [|exists h, (Raise e); by repeat split; try apply preserves_refl].
    rewrite result_bind_ret.
    assert (is_Some (h0 !! xi)) as Hxi.
    { rewrite Forall_forall in Hwf. by apply Hwf, (getitem_elem_of _ i). }
    rewrite (preserves_total h0 h xi Hp Hxi).
    destruct (img.icols (h0 !!! xi) =? img.irows (h0 !!! xi))%Z; [|by apply IH].
    destruct (getitem imageList 0) as [x0|e] eqn:E0; cbn [fmap result_fmap];
      [|exists h, (Raise e); by repeat split; try apply preserves_refl].
    rewrite !result_bind_ret.
    assert (is_Some (h0 !! x0)) as Hx0.
    { rewrite Forall_forall in Hwf. by apply Hwf, (getitem_elem_of _ 0). }
    rewrite (preserves_total h0 h x0 Hp Hx0).
    destruct (scaled_magnification (h0 !!! x0) (h0 !!! xi)) as [m|e];
      [|exists h, (Raise e); by repeat split; try apply preserves_refl].
    rewrite result_bind_ret.
    set (rec := img.mk _ _ m _ _ _ _).
    pose proof (alloc_fresh h rec) as Hfresh.
    pose proof (alloc_preserves h rec) as Hpres.
    pose proof (alloc_lookup h rec) as Hlook.
    destruct (alloc h rec) as [a h1]. cbn [fst snd] in Hfresh, Hpres, Hlook.
    assert (a ∉ acc) as Ha.
    { intros Hin. rewrite Forall_forall in Hnew.
      destruct (Hnew a Hin) as [_ [? ?]]. congruence. }
    destruct (IH h1 (acc ++ [a])) as (h' & res & -> & Hp' & Hval & Hres).
    + intros x r Hx. by apply Hpres, Hp.
    + apply NoDup_app. split; [done|]. split; [|apply NoDup_singleton].
      intros x Hx ->%list_elem_of_singleton. done.
    + apply Forall_app. split.
      * eapply Forall_impl; [exact Hnew|]. intros x [Hx0' [r Hr]].
        split; [done|]. exists r. by apply Hpres.
      * constructor; [|constructor]. split; [|by exists rec].
        destruct (h0 !! a) as [r|] eqn:E; [|done].
        apply Hp in E. congruence.
    + exists h', res. split; [done|]. split.
      { intros x r Hx. by apply Hp', Hpres. }
      split; [|done]. fold (deref h0 imageList). rewrite <- Hval. f_equal.
      unfold deref. rewrite fmap_app. cbn [fmap list_fmap]. f_equal.
      * apply list_fmap_ext. intros j x Hj. symmetry.
        rewrite Forall_forall in Hnew.
        destruct (Hnew x) as [_ [r Hr]]; [by eapply list_elem_of_lookup_2|].
        rewrite (lookup_total_correct _ _ _ Hr).
        apply lookup_total_correct. by apply Hpres.
      * f_equal. symmetry. by apply lookup_total_correct.
Qed.

(** ** Claim on the side effect of the Analyzer *)

(** C9: the call leaves the caller's list object holding the same
    references in stable descending order of ['size']; every dictionary
    that existed before the call is unchanged; what is returned agrees with
    the Analyzer on values; the references returned point to dictionaries
    that did not exist before the call, each to its own. *)
Theorem analyzer_reorders_callers_list (h : heap) (imageList : list loc) :
  Forall (fun x => is_Some (h !! x)) imageList →
  ∃ h' sorted res,
    analyze_image_list_ref h imageList = (h', sorted, res) ∧
    sorted ≡ₚ imageList ∧
    stable_sort_of (size_at h) imageList sorted ∧
    preserves h h' ∧
    analyze_image_list (deref h imageList) = (deref h' sorted, deref h' <$> res) ∧
    match res with
    | Ok tiled => NoDup tiled ∧
                  Forall (fun x => h !! x = None ∧ is_Some (h' !! x)) tiled
    | Raise _ => True
    end.
Proof.
  intros Hwf. unfold analyze_image_list_ref. cbv zeta.
  set (sorted := sort_desc (size_at h) imageList).
  assert (sorted ≡ₚ imageList) as Hperm by apply sort_desc_Permutation.
  assert (Forall (fun x => is_Some (h !! x)) sorted) as Hwf' by by rewrite Hperm.
  destruct (analyze_loop_ref_spec h sorted (seq 0 (length sorted)) Hwf' h [])
    as (h' & res & -> & Hp & Hval & Hres);
    [apply preserves_refl | constructor | constructor |].
  exists h', sorted, res. split; [done|]. split; [done|].
  split; [apply sort_desc_stable|]. split; [done|]. split; [|done].
  assert (deref h sorted = sort_desc img.size (deref h imageList)) as Hsort.
  { unfold deref, sorted. by rewrite sort_desc_fmap. }
  assert (deref h' sorted = deref h sorted) as Hsame.
  { unfold deref. apply list_fmap_ext. intros j x Hj.
    apply preserves_total; [done|].
    rewrite Forall_forall in Hwf'. by eapply Hwf', list_elem_of_lookup_2. }
  unfold analyze_image_list. cbv zeta. rewrite <- Hsort, Hsame. f_equal.
  rewrite <- Hval. unfold deref at 2 3. by rewrite !length_fmap.
Qed.

Lemma analyzer_reorders_callers_list_witness :
  Forall (fun x => is_Some (sample_heap !! x)) sample_refs ∧
  ∃ h' sorted res,
    analyze_image_list_ref sample_heap sample_refs = (h', sorted, res) ∧
    sorted ≡ₚ sample_refs ∧
    stable_sort_of (size_at sample_heap) sample_refs sorted ∧
    preserves sample_heap h' ∧
    analyze_image_list (deref sample_heap sample_refs)
    = (deref h' sorted, deref h' <$> res) ∧
    match res with
    | Ok tiled => NoDup tiled ∧
                  Forall (fun x => sample_heap !! x = None ∧ is_Some (h' !! x)) tiled
    | Raise _ => True
    end.
Proof.
  assert (Forall (fun x => is_Some (sample_heap !! x)) sample_refs) as Hwf
    by by_decision.
  split; [exact Hwf|].
  exact (analyzer_reorders_callers_list sample_heap sample_refs Hwf).
Defined.

(** ** Running computations *)

Lemma run_bind {A B} (m : M A) (k : A → M B) w :
  (m ≫= k) w = match m w with
               | (Ok a, w') => k a w'
               | (Raise e, w') => (Raise e, w')
               end.
Proof. reflexivity. Qed.

Lemma run_ret {A} (a : A) w : (mret a : M A) w = (Ok a, w).
Proof. reflexivity. Qed.

Lemma run_emit e w : emit e w = (Ok (), add_trace w [e]).
Proof. reflexivity. Qed.

Lemma run_v args w : v args w = (Ok (), add_trace w [Verbose args]).
Proof. reflexivity. Qed.

Lemma run_lift {A} (r : result A) w : lift r w = (r, w).
Proof. reflexivity. Qed.

Lemma run_InstanceData instance m w :
  InstanceData instance m w
  = (Ok {| abspath := instance ++ ["dicom"]; data_meta := m |},
     add_trace w [NewInstanceData (instance ++ ["dicom"]) m]).
Proof. reflexivity. Qed.

Lemma run_path_exists p w :
  path_exists p w
  = (Ok (bool_decide (is_Some (lookup_node (root w) (resolve (cwd w) p)))), w).
Proof. reflexivity. Qed.

(** One step of a computation: run the first action with [lem], go on with
    the rest. *)
Ltac step lem := rewrite run_bind, lem; cbv beta iota.

(** ** Selective Importer *)

Section ImporterFacts.
Variable self : config.

(** The single-instance path without a match: the diagnostic, no exception,
    the file system as it was, and no call for an instance data, a copy, a
    meta update or a confirmation. *)
Lemma importSingleInstance_no_match w input_dir sorted_dir es tiledImages :
  lookup_node (root w) input_dir = Some (Dir es) →
  NoDup es.*1 →
  (analyze_image_list (records_of es)).2 = Ok tiledImages →
  return_magnitude_match tiledImages (IntNum (magnification self)) (magTolerance self)
  = Ok None →
  importSingleInstance self input_dir sorted_dir w
  = (Ok (),
     World input_dir (root w)
       (trace w ++
        [Verbose [Str "> importing single instance"]; AddInstance sorted_dir "inst0"] ++
        resolve_events es tiledImages ++
        [Verbose [Str "no image matching the target magnification found"]])).
Proof.
  intros Hd Hnd Ha Hm. unfold importSingleInstance.
  step run_v. step run_emit.
  step (pydicom_extract_information_spec
          (add_trace (add_trace w [Verbose [Str "> importing single instance"]])
             [AddInstance sorted_dir "inst0"]) (Abs input_dir) es Hd Hnd).
  step @run_lift. rewrite Ha. cbv beta iota.
  step run_v. step @run_lift. rewrite Hm. cbv beta iota.
  rewrite run_v. unfold add_trace, resolve_events. cbn [cwd root trace resolve].
  by rewrite <- !(assoc_L (++)).
Qed.

(** The multi-instance path without a match for the instance [sid]: after
    the diagnostic the loop goes on to the output folder and to
    [matchingImage['filename']]; it raises, and the instances after [sid]
    are not reached. The exception is [TypeError] unless the output folder
    cannot be made. *)
Lemma importMultipleInstances_loop_no_match w input_dir sorted_dir instances_n
    i sid rest es tiledImages :
  lookup_node (root w) (input_dir ++ [sid]) = Some (Dir es) →
  NoDup es.*1 →
  (analyze_image_list (records_of es)).2 = Ok tiledImages →
  return_magnitude_match tiledImages (IntNum (magnification self)) (magTolerance self)
  = Ok None →
  ∃ e w',
    importMultipleInstances_loop self input_dir sorted_dir instances_n
      ((i, sid) :: rest) w = (Raise e, w') ∧
    (is_Some (lookup_node (root w') (sorted_dir ++ [sid; "dicom"])) → e = TypeError).
Proof.
  intros Hd Hnd Ha Hm. cbn [importMultipleInstances_loop].
  step run_v. step run_emit.
  cbn [path_join resolve app].
  rewrite run_bind, (pydicom_extract_information_spec _ _ es) by done.
  cbv beta iota.
  step @run_lift. rewrite Ha. cbv beta iota.
  step run_v. step @run_lift. rewrite Hm. cbv beta iota.
  step run_v. step run_InstanceData. cbn [abspath].
  step run_path_exists. cbn [cwd root trace resolve add_trace].
  replace ((sorted_dir ++ [sid]) ++ ["dicom"]) with (sorted_dir ++ [sid; "dicom"])
    by (by rewrite <- (assoc_L (++))).
  destruct (lookup_node (root w) (sorted_dir ++ [sid; "dicom"])) as [n|] eqn:El.
  - rewrite bool_decide_true by eauto. cbn [negb]. step @run_ret.
    rewrite run_bind, @run_lift. cbn [filename_of]. eauto.
  - rewrite bool_decide_false by (by intros [? ?]). cbn [negb].
    rewrite run_bind. unfold makedirs, add_trace. cbn [cwd root trace resolve].
    destruct (fs_makedirs (root w) (sorted_dir ++ [sid; "dicom"])) as [r|e] eqn:Em.
    + cbv beta iota. rewrite run_bind, @run_lift. cbn [filename_of]. eauto.
    + eexists _, _. split; [reflexivity|]. cbn [root].
      rewrite El. by intros [? ?].
Qed.

End ImporterFacts.

(** ** Claim on the Importer without a match *)

(** C1 holds on the single-instance path and fails on the multi-instance
    path. For a source with the folders [a] (no image) and [b] (a pyramid
    with a 10x level) and the default configuration,
    [importMultipleInstances] logs the diagnostic for [a], then makes the
    output folder [out/a/dicom] and raises [TypeError] at
    [matchingImage['filename']]: there is no copy and no meta update, but
    the batch ends there and [b] is never imported. For a flat source
    without images [importSingleInstance] logs the diagnostic and returns,
    leaving the file system as it was. *)
Theorem multi_instance_no_match_raises :
  importMultipleInstances sample_config ["in"] ["out"] series_world
  = (Raise TypeError,
     {| cwd := ["in"; "a"];
        root := Dir [ ("in", series_source);
                      ("out", Dir [ ("a", Dir [ ("dicom", Dir []) ]) ]) ];
        trace :=
          [ Verbose [Str "> importing instance ("; Int 1; Str "/"; Int 2;
                     Str "): "; Str "a"];
            AddInstance ["out"; "a"] "a";
            Print [Str "good image count:"; Int 0];
            Verbose [Str "found "; Int 0; Str "tiled images in this directory"];
            Verbose [Str "no image matching the desired target magnification was found in directory";
                     Path (Abs ["in"])];
            NewInstanceData ["out"; "a"; "dicom"] [("mod", "%Modality")] ] |})
  ∧ importSingleInstance sample_config ["in"] ["out"] empty_flat_world
  = (Ok (),
     {| cwd := ["in"];
        root := root empty_flat_world;
        trace :=
          [ Verbose [Str "> importing single instance"];
            AddInstance ["out"] "inst0";
            Print [Str "good image count:"; Int 0];
            Verbose [Str "found "; Int 0; Str "tiled images in this directory"];
            Verbose [Str "no image matching the target magnification found"] ] |}).
Proof. split; by vm_compute. Qed.

(** ** The scenarios of the specification, run on the model *)

(** Scenario A: target 20, tolerance 2; the match is the largest file, at
    20.0. *)
Example scenario_A :
  (levels ← (analyze_image_list [slide_10x; slide_label; slide_40x]).2;
   return_magnitude_match levels (FloatNum f20) f2)
  = Ok (Some slide_40x).
Proof. reflexivity. Qed.

(** Scenario B: the second file would be at 10.0, but its tile is 500 x 250;
    it is no candidate, and target 10 with tolerance 1 finds nothing. *)
Example scenario_B :
  effective_magnification slide_40x slide_label = Ok f10 ∧
  (levels ← (analyze_image_list [slide_label; slide_40x]).2;
   return_magnitude_match levels (FloatNum f10) f1)
  = Ok None.
Proof. split; reflexivity. Qed.

(** Scenario C: target 10, tolerance 0.5; the only candidate is at 10.6. *)
Example scenario_C :
  (analyze_image_list [slide_10_6x]).2 = Ok [slide_10_6x] ∧
  return_magnitude_match [slide_10_6x] (FloatNum f10) f0_5 = Ok None.
Proof. split; reflexivity. Qed.

(** The tolerance boundary: a level at 12.0 is at distance 2.0 from the
    target 10 and does not match with tolerance 2.0. *)
Example tolerance_boundary :
  at_boundary f10 f2 slide_12x = true ∧
  return_magnitude_match [slide_12x] (IntNum 10) f2 = Ok None.
Proof. split; reflexivity. Qed.

(** A base that is not square-tiled is the reference and is not returned. *)
Example non_square_base :
  analyze_image_list [slide_10x; slide_label]
  = ([slide_label; slide_10x],
     Ok [img.mk "level2.dcm" 62500 f10 250 250 250 250]).
Proof. reflexivity. Qed.

(** The whole task on the series source ends with the exception. *)
Example task_series_raises :
  (task sample_config series_world).1 = Raise TypeError.
Proof. reflexivity. Qed.

(** The whole task on a flat source with a level at 10x: the one file is
    copied, the placeholder of the meta is resolved, the data is
    confirmed. *)
Example task_flat_imports :
  ∃ w', task sample_config flat_world = (Ok (), w') ∧
    lookup_node (root w') ["out"; "dicom"]
    = Some (Dir [("level1.dcm", File (Some header_10x))]) ∧
    trace w' =
      [ Verbose [Str "> WsiDicomImporter task"];
        Verbose [Str "> source input dir: "; Path (Rel ["in"]); Str " --> ";
                 Path (Abs ["in"])];
        Verbose [Str "> import sort  dir: "; Path (Rel ["out"]); Str " --> ";
                 Path (Abs ["out"])];
        Verbose [];
        Verbose [Str "> importing dicom whole slide imaging data"];
        Print [Str "> source dir structure: "; Str "InputDirStructure.FLAT"];
        Verbose [Str "> importing single instance"];
        AddInstance ["out"] "inst0";
        Print [Str "level0.dcm"];
        Print [Str "level1.dcm"];
        Print [Str "good image count:"; Int 2];
        Verbose [Str "found "; Int 2; Str "tiled images in this directory"];
        Verbose [Str "level1.dcm"];
        NewInstanceData ["out"; "dicom"] [("mod", "%Modality")];
        MetaUpdate ["out"; "dicom"] [("mod", "SM")];
        Confirm ["out"; "dicom"] ].
Proof. eexists. split; [by vm_compute|]. split; by vm_compute. Qed.

(** * Further properties *)

(** ** More on the Analyzer *)

Lemma mapM_result_Ok {A B} (f : A → result B) l k :
  mapM f l = Ok k → Forall2 (fun x y => f x = Ok y) l k.
Proof.
  revert k. induction l as [|x l IH]; intros k.
  - intros [= <-]. constructor.
  - rewrite mapM_result_cons.
    destruct (f x) as [y|e] eqn:Ef; [|done]. rewrite result_bind_ret.
    destruct (mapM f l) as [k'|e]; [|done]. intros [= <-].
    constructor; [done | by apply IH].
Qed.

Lemma mapM_result_Raise {A B} (f : A → result B) l e :
  mapM f l = Raise e → ∃ x, x ∈ l ∧ f x = Raise e.
Proof.
  induction l as [|x l IH]; [done|]. rewrite mapM_result_cons.
  destruct (f x) as [y|e'] eqn:Ef.
  - rewrite result_bind_ret. destruct (mapM f l) as [k'|e'] eqn:Em; [done|].
    intros [= ->]. destruct IH as (x' & Hin & Hx'); [done|].
    exists x'. split; [by right | done].
  - intros [= ->]. exists x. split; [left | done].
Qed.

Lemma elem_of_filter_is_square r l :
  r ∈ List.filter is_square l ↔ r ∈ l ∧ is_square r = true.
Proof. rewrite !list_elem_of_In. apply filter_In. Qed.

Lemma int_truediv_Raise a b e :
  F64.int_truediv a b = Raise e →
  (e = ZeroDivisionError ∧ b = 0%Z) ∨ (e = OverflowError ∧ b ≠ 0%Z).
Proof.
  unfold F64.int_truediv. destruct (Z.eqb_spec b 0) as [->|Hb].
  - intros [= <-]. by left.
  - destruct (F64.div _ _); intros [= <-]. by right.
Qed.

Lemma PyramidLevel_Raise base r e :
  PyramidLevel base r = Raise e →
  (e = ZeroDivisionError ∧ img.cols base = 0%Z) ∨
  (e = OverflowError ∧ img.cols base ≠ 0%Z).
Proof.
  unfold PyramidLevel, effective_magnification.
  destruct (F64.int_truediv _ _) as [q|e'] eqn:E; [done|].
  intros [= ->]. by apply int_truediv_Raise in E.
Qed.

Lemma PyramidLevel_Ok base r lv :
  PyramidLevel base r = Ok lv →
  img.filename lv = img.filename r ∧ img.size lv = img.size r ∧
  img.cols lv = img.cols r ∧ img.rows lv = img.rows r ∧
  img.icols lv = img.icols r ∧ img.irows lv = img.irows r ∧
  effective_magnification base r = Ok (img.mag lv).
Proof.
  unfold PyramidLevel.
  destruct (effective_magnification base r) as [m|e]; [|done].
  by intros [= <-].
Qed.

Lemma levels_of_sorted_nil_filter sorted :
  List.filter is_square sorted = [] → levels_of_sorted sorted = Ok [].
Proof. unfold levels_of_sorted. destruct sorted; [done|]. by intros ->. Qed.

Lemma filter_is_square_none l :
  (∀ r, r ∈ l → img.icols r ≠ img.irows r) → List.filter is_square l = [].
Proof.
  intros Hno. destruct (List.filter is_square l) as [|r k] eqn:E; [done|].
  assert (r ∈ List.filter is_square l) as [Hin Hsq]%elem_of_filter_is_square
    by (rewrite E; left).
  unfold is_square in Hsq. apply Z.eqb_eq in Hsq. by destruct (Hno r Hin).
Qed.

Lemma StronglySorted_list_filter {A} (R : relation A) (f : A → bool) l :
  StronglySorted R l → StronglySorted R (List.filter f l).
Proof.
  induction 1 as [|x l Hl IH Hx]; simpl; [constructor|].
  destruct (f x); [|done]. constructor; [done|].
  apply Forall_forall. intros y Hy%list_elem_of_In%filter_In.
  apply (proj1 (Forall_forall _ _) Hx), list_elem_of_In, Hy.
Qed.

Lemma StronglySorted_Forall2_key {A B} (ka : A → Z) (kb : B → Z) (P : A → B → Prop) l k :
  (∀ x y, P x y → kb y = ka x) →
  Forall2 P l k → StronglySorted (desc ka) l → StronglySorted (desc kb) k.
Proof.
  intros HP HF. induction HF as [|x y l k Hxy HF IH]; intros Hs; [constructor|].
  apply StronglySorted_inv in Hs as [Hl Hx].
  constructor; [by apply IH|].
  apply Forall_forall. intros y' Hy'.
  destruct (proj1 (list_elem_of_lookup k y') Hy') as [i Hi].
  destruct (Forall2_lookup_r _ _ _ _ _ HF Hi) as (x' & Hx' & Hp).
  unfold desc. rewrite (HP _ _ Hxy), (HP _ _ Hp).
  apply (proj1 (Forall_forall _ _) Hx x'). by eapply list_elem_of_lookup_2.
Qed.

(** The levels computed from a sorted list: one per square-tiled record,
    in order, with every field but ['mag'] copied. *)
Lemma levels_of_sorted_Ok sorted out :
  levels_of_sorted sorted = Ok out →
  Forall2 (fun r lv => img.filename lv = img.filename r ∧ img.size lv = img.size r ∧
                       img.icols lv = img.icols r ∧ img.irows lv = img.irows r)
          (List.filter is_square sorted) out.
Proof.
  unfold levels_of_sorted. destruct sorted as [|base others].
  - intros [= <-]. constructor.
  - intros H%mapM_result_Ok. eapply Forall2_impl; [exact H|].
    by intros r lv (H1 & H2 & _ & _ & H5 & H6 & _)%PyramidLevel_Ok.
Qed.

Lemma levels_of_sorted_sorted sorted out :
  StronglySorted (desc img.size) sorted →
  levels_of_sorted sorted = Ok out →
  StronglySorted (desc img.size) out.
Proof.
  intros Hs HF%levels_of_sorted_Ok.
  eapply (StronglySorted_Forall2_key img.size img.size); [|exact HF|].
  - by intros r lv (_ & ? & _).
  - by apply StronglySorted_list_filter.
Qed.

Lemma analyze_image_list_Ok_sorted records out :
  (analyze_image_list records).2 = Ok out → StronglySorted (desc img.size) out.
Proof.
  rewrite analyze_image_list_sorted. cbn [snd].
  apply levels_of_sorted_sorted, sort_desc_sorted.
Qed.

(** X1: when no record is square-tiled the Analyzer returns the empty
    list, whatever the columns are: nothing is divided, so a base with
    ['cols'] equal to [0] raises nothing. *)
Theorem analyzer_without_square_tiles (records : list img.t) :
  (∀ r, r ∈ records → img.icols r ≠ img.irows r) →
  (analyze_image_list records).2 = Ok [].
Proof.
  intros Hno. rewrite analyze_image_list_sorted. cbn [snd].
  apply levels_of_sorted_nil_filter, filter_is_square_none.
  intros r Hr. apply Hno. by rewrite <- (sort_desc_Permutation img.size records).
Qed.

Lemma analyzer_without_square_tiles_witness :
  (∀ r, r ∈ [slide_label; slide_flat] → img.icols r ≠ img.irows r) ∧
  (analyze_image_list [slide_label; slide_flat]).2 = Ok [].
Proof.
  assert (∀ r, r ∈ [slide_label; slide_flat] → img.icols r ≠ img.irows r) as Hno.
  { intros r Hr. apply list_elem_of_In in Hr. simpl in Hr.
    destruct Hr as [<-|[<-|[]]]; by vm_compute. }
  split; [exact Hno|]. exact (analyzer_without_square_tiles _ Hno).
Defined.

(** X2: the Analyzer raises nothing but [ZeroDivisionError] and
    [OverflowError] (its two index accesses are always in range), and it
    raises [ZeroDivisionError] only when the first record of the sorted
    list has ['cols'] equal to [0] and some record is square-tiled. *)
Theorem analyzer_raises_only_from_division (records sorted : list img.t) (e : exn) :
  stable_sort_of img.size records sorted →
  (analyze_image_list records).2 = Raise e →
  (e = ZeroDivisionError ∨ e = OverflowError) ∧
  (e = ZeroDivisionError →
   ∃ base others, sorted = base :: others ∧ img.cols base = 0%Z ∧
     ∃ r, r ∈ records ∧ img.icols r = img.irows r).
Proof.
  intros Hs. rewrite analyze_image_list_sorted.
  rewrite <- (stable_sort_of_sort_desc _ _ _ Hs). cbn [snd].
  destruct sorted as [|base others]; [done|]. unfold levels_of_sorted.
  intros (r & [Hin Hsq]%elem_of_filter_is_square & Hr)%mapM_result_Raise.
  apply PyramidLevel_Raise in Hr as [[-> Hb]|[-> Hb]].
  - split; [by left|]. intros _. exists base, others. repeat split; [done|].
    exists r. split; [by rewrite <- (stable_sort_of_Permutation _ _ _ Hs)|].
    unfold is_square in Hsq. by apply Z.eqb_eq.
  - split; [by right | done].
Qed.

Lemma analyzer_raises_only_from_division_witness :
  stable_sort_of img.size [slide_10x; slide_flat] [slide_flat; slide_10x] ∧
  (analyze_image_list [slide_10x; slide_flat]).2 = Raise ZeroDivisionError ∧
  (ZeroDivisionError = ZeroDivisionError ∨ ZeroDivisionError = OverflowError) ∧
  (ZeroDivisionError = ZeroDivisionError →
   ∃ base others, [slide_flat; slide_10x] = base :: others ∧ img.cols base = 0%Z ∧
     ∃ r, r ∈ [slide_10x; slide_flat] ∧ img.icols r = img.irows r).
Proof.
  assert (stable_sort_of img.size [slide_10x; slide_flat] [slide_flat; slide_10x])
    as Hs by solve_stable_sort.
  split; [exact Hs|]. split; [reflexivity|].
  exact (analyzer_raises_only_from_division _ _ _ Hs eq_refl).
Defined.

(** X3: a list returned by the Analyzer is in descending order of
    ['size'], holds square-tiled records only, and names exactly the
    square-tiled records of the sorted input, in their order; it is never
    longer than the input. *)
Theorem analyzer_output_sorted_and_square (records sorted out : list img.t) :
  stable_sort_of img.size records sorted →
  (analyze_image_list records).2 = Ok out →
  StronglySorted (desc img.size) out ∧
  Forall (fun lv => is_square lv = true) out ∧
  img.filename <$> out = img.filename <$> List.filter is_square sorted ∧
  length out ≤ length records.
Proof.
  intros Hs. rewrite analyze_image_list_sorted.
  rewrite <- (stable_sort_of_sort_desc _ _ _ Hs). cbn [snd].
  intros HF%levels_of_sorted_Ok.
  split; [|split; [|split]].
  - eapply (StronglySorted_Forall2_key img.size img.size); [|exact HF|].
    + by intros r lv (_ & ? & _).
    + apply StronglySorted_list_filter, Hs.
  - apply Forall_forall. intros lv Hlv.
    destruct (proj1 (list_elem_of_lookup out lv) Hlv) as [i Hi].
    destruct (Forall2_lookup_r _ _ _ _ _ HF Hi) as (r & Hr & _ & _ & Hic & Hir).
    apply list_elem_of_lookup_2, elem_of_filter_is_square in Hr as [_ Hsq].
    unfold is_square in *. by rewrite Hic, Hir.
  - clear Hs. induction HF as [|r lv l k (Hf & _) _ IH]; [done|].
    cbn [fmap list_fmap]. by rewrite Hf, IH.
  - rewrite <- (Forall2_length _ _ _ HF).
    rewrite <- (stable_sort_of_Permutation _ _ _ Hs).
    pose proof (filter_length is_square sorted). lia.
Qed.

Lemma analyzer_output_sorted_and_square_witness :
  stable_sort_of img.size [slide_10x; slide_label; slide_40x]
                          [slide_40x; slide_label; slide_10x] ∧
  (analyze_image_list [slide_10x; slide_label; slide_40x]).2
  = Ok [slide_40x; img.mk "level2.dcm" 62500 f5 250 250 250 250] ∧
  StronglySorted (desc img.size) [slide_40x; img.mk "level2.dcm" 62500 f5 250 250 250 250] ∧
  Forall (fun lv => is_square lv = true)
    [slide_40x; img.mk "level2.dcm" 62500 f5 250 250 250 250] ∧
  img.filename <$> [slide_40x; img.mk "level2.dcm" 62500 f5 250 250 250 250]
  = img.filename <$> List.filter is_square [slide_40x; slide_label; slide_10x] ∧
  length [slide_40x; img.mk "level2.dcm" 62500 f5 250 250 250 250]
  ≤ length [slide_10x; slide_label; slide_40x].
Proof.
  assert (stable_sort_of img.size [slide_10x; slide_label; slide_40x]
            [slide_40x; slide_label; slide_10x]) as Hs by solve_stable_sort.
  split; [exact Hs|]. split; [reflexivity|].
  exact (analyzer_output_sorted_and_square _ _ _ Hs eq_refl).
Defined.

(** X4: the call sorts the caller's list in place, so a second call on
    the same list sees the sorted list; it leaves the list as it is and
    returns what the first call returned. *)
Theorem analyzer_twice (records : list img.t) :
  analyze_image_list (analyze_image_list records).1 = analyze_image_list records.
Proof.
  rewrite !analyze_image_list_sorted. cbn [fst].
  assert (sort_desc img.size (sort_desc img.size records) = sort_desc img.size records)
    as ->; [|done].
  apply sort_desc_ext_filters. intros k. apply filter_key_sort_desc.
Qed.

(** ** More on the Matcher *)

Lemma ltb_trans x y z :
  F64.ltb x y = true → F64.ltb y z = true → F64.ltb x z = true.
Proof.
  unfold F64.ltb, SFltb.
  destruct x as [sx|sx| |sx mx ex], y as [sy|sy| |sy my ey], z as [sz|sz| |sz mz ez];
    try destruct sx; try destruct sy; try destruct sz; cbn [SFcompare]; try done.
  all: destruct (Z.compare_spec ex ey), (Z.compare_spec ey ez), (Z.compare_spec ex ez);
    try done; try lia; subst.
  all: repeat match goal with
       | |- context [Pos.compare_cont Eq ?a ?b] =>
           change (Pos.compare_cont Eq a b) with (Pos.compare a b);
           destruct (Pos.compare_spec a b)
       end; cbn [CompOpp]; try done; try lia.
Qed.

(** An absolute value below [tol] makes [tol] positive. *)
Lemma ltb_abs_pos x tol :
  F64.ltb (F64.abs x) tol = true → F64.ltb (S754_zero false) tol = true.
Proof.
  unfold F64.ltb, SFltb, F64.abs.
  destruct x as [sx|sx| |sx mx ex], tol as [sz|sz| |sz mz ez];
    try destruct sz; cbn [SFabs SFcompare]; try done.
Qed.

Lemma return_magnitude_match_spec targetMag t tol levels :
  py_float targetMag = Ok t →
  ∃ m, return_magnitude_match levels targetMag tol = Ok m ∧
    match m with
    | Some level => ∃ before after, levels = before ++ level :: after ∧
        Forall (fun x => near t tol x = false) before ∧ near t tol level = true
    | None => Forall (fun x => near t tol x = false) levels
    end.
Proof. exact (match_loop_spec targetMag t tol [] levels). Qed.

Lemma match_loop_Raise targetMag tol e l1 r l2 :
  py_float targetMag = Raise e →
  match_loop (l1 ++ r :: l2) targetMag tol (seq (length l1) (length (r :: l2)))
  = Raise e.
Proof.
  intros Ht. cbn [length seq match_loop].
  rewrite getitem_app_length, result_bind_ret.
  unfold within_tolerance. by rewrite Ht.
Qed.

(** X5: [float(targetMag)] is evaluated once per level visited: for the
    empty list the Matcher returns [None] whatever the target is, and for
    a non-empty list a target that [float] rejects (an [int] too large for
    a float) makes it raise at the first level. *)
Theorem matcher_unconvertible_target (levels : list img.t) (targetMag : number)
    (tolerance : float) (e : exn) :
  py_float targetMag = Raise e →
  (levels = [] → return_magnitude_match levels targetMag tolerance = Ok None) ∧
  (levels ≠ [] → return_magnitude_match levels targetMag tolerance = Raise e).
Proof.
  intros Ht. split; [by intros ->|].
  destruct levels as [|r l]; [done|]. intros _.
  apply (match_loop_Raise targetMag tolerance e [] r l Ht).
Qed.

Lemma matcher_unconvertible_target_witness :
  py_float (IntNum (2 ^ 1024)) = Raise OverflowError ∧
  ([slide_40x] = [] → return_magnitude_match [slide_40x] (IntNum (2 ^ 1024)) f2 = Ok None) ∧
  ([slide_40x] ≠ [] →
   return_magnitude_match [slide_40x] (IntNum (2 ^ 1024)) f2 = Raise OverflowError).
Proof.
  assert (py_float (IntNum (2 ^ 1024)) = Raise OverflowError) as Ht by by vm_compute.
  split; [exact Ht|].
  exact (matcher_unconvertible_target [slide_40x] _ f2 _ Ht).
Defined.

(** X6: a tolerance that is not above zero (zero, negative or NaN) matches
    no level: the Matcher returns [None]. *)
Theorem matcher_tolerance_not_positive (levels : list img.t) (targetMag : number)
    (target tolerance : float) :
  py_float targetMag = Ok target →
  F64.ltb (S754_zero false) tolerance = false →
  return_magnitude_match levels targetMag tolerance = Ok None.
Proof.
  intros Ht Htol.
  destruct (return_magnitude_match_spec targetMag target tolerance levels Ht)
    as (m & -> & Hspec).
  destruct m as [level|]; [|done].
  destruct Hspec as (before & after & _ & _ & Hnear).
  apply ltb_abs_pos in Hnear. congruence.
Qed.

Lemma matcher_tolerance_not_positive_witness :
  py_float (IntNum 10) = Ok f10 ∧
  F64.ltb (S754_zero false) (S754_zero false) = false ∧
  return_magnitude_match [slide_10x; slide_40x] (IntNum 10) (S754_zero false) = Ok None.
Proof.
  split; [reflexivity|]. split; [reflexivity|].
  exact (matcher_tolerance_not_positive [slide_10x; slide_40x] (IntNum 10) f10
           (S754_zero false) eq_refl eq_refl).
Defined.

(** X7: on the list that the Analyzer returns, the level that the Matcher
    picks is a largest one among the levels within tolerance: no level
    within tolerance has more pixels. *)
Theorem matcher_prefers_largest (records levels : list img.t) (targetMag : number)
    (target tolerance : float) (level : img.t) :
  py_float targetMag = Ok target →
  (analyze_image_list records).2 = Ok levels →
  return_magnitude_match levels targetMag tolerance = Ok (Some level) →
  ∀ other, other ∈ levels → near target tolerance other = true →
    (img.size other ≤ img.size level)%Z.
Proof.
  intros Ht Ha Hm other Hin Hnear.
  apply analyze_image_list_Ok_sorted in Ha.
  destruct (return_magnitude_match_spec targetMag target tolerance levels Ht)
    as (m & Hm' & Hspec).
  rewrite Hm' in Hm. injection Hm as ->.
  destruct Hspec as (before & after & -> & Hb & _).
  apply StronglySorted_app_1_r, StronglySorted_inv in Ha as [_ Hafter].
  apply elem_of_app in Hin as [Hin|Hin].
  - rewrite Forall_forall in Hb. rewrite (Hb other Hin) in Hnear. done.
  - apply elem_of_cons in Hin as [->|Hin]; [lia|].
    apply (proj1 (Forall_forall _ _) Hafter other Hin).
Qed.

Lemma matcher_prefers_largest_witness :
  py_float (IntNum 10) = Ok f10 ∧
  (analyze_image_list [slide_10x; slide_12x]).2
  = Ok [slide_12x; img.mk "level2.dcm" 62500 f5 250 250 250 250] ∧
  return_magnitude_match [slide_12x; img.mk "level2.dcm" 62500 f5 250 250 250 250]
    (IntNum 10) f10 = Ok (Some slide_12x) ∧
  ∀ other, other ∈ [slide_12x; img.mk "level2.dcm" 62500 f5 250 250 250 250] →
    near f10 f10 other = true → (img.size other ≤ img.size slide_12x)%Z.
Proof.
  split; [reflexivity|]. split; [reflexivity|]. split; [reflexivity|].
  exact (matcher_prefers_largest [slide_10x; slide_12x] _ (IntNum 10) f10 f10 slide_12x
           eq_refl eq_refl eq_refl).
Defined.

(** X8: a larger tolerance never loses a match: when the Matcher finds a
    level with one tolerance, it finds one with every larger tolerance,
    and that one stands at the same place in the list or before it. *)
Theorem matcher_wider_tolerance (levels : list img.t) (targetMag : number)
    (target tolerance wider : float) (level : img.t) :
  py_float targetMag = Ok target →
  F64.ltb tolerance wider = true →
  return_magnitude_match levels targetMag tolerance = Ok (Some level) →
  ∃ level' before after,
    return_magnitude_match levels targetMag wider = Ok (Some level') ∧
    levels = before ++ level' :: after ∧
    level ∈ level' :: after.
Proof.
  intros Ht Hw Hm.
  destruct (return_magnitude_match_spec targetMag target tolerance levels Ht)
    as (m & Hm' & Hspec).
  rewrite Hm' in Hm. injection Hm as ->.
  destruct Hspec as (b1 & a1 & E1 & Hb1 & Hnear).
  assert (near target wider level = true) as Hnear' by by eapply ltb_trans.
  destruct (return_magnitude_match_spec targetMag target wider levels Ht)
    as (m & -> & Hspec2).
  destruct m as [level'|].
  - destruct Hspec2 as (b2 & a2 & E2 & Hb2 & _).
    exists level', b2, a2. split; [done|]. split; [done|].
    assert (level ∈ levels) as Hin by (rewrite E1; set_solver).
    rewrite E2 in Hin. apply elem_of_app in Hin as [Hin|Hin]; [|done].
    rewrite Forall_forall in Hb2. rewrite (Hb2 level Hin) in Hnear'. done.
  - assert (level ∈ levels) as Hin by (rewrite E1; set_solver).
    rewrite Forall_forall in Hspec2. rewrite (Hspec2 level Hin) in Hnear'. done.
Qed.

Lemma matcher_wider_tolerance_witness :
  py_float (IntNum 10) = Ok f10 ∧
  F64.ltb f1 f10 = true ∧
  return_magnitude_match [slide_12x; slide_10_6x] (IntNum 10) f1
  = Ok (Some slide_10_6x) ∧
  ∃ level' before after,
    return_magnitude_match [slide_12x; slide_10_6x] (IntNum 10) f10 = Ok (Some level') ∧
    [slide_12x; slide_10_6x] = before ++ level' :: after ∧
    slide_10_6x ∈ level' :: after.
Proof.
  split; [reflexivity|]. split; [reflexivity|]. split; [reflexivity|].
  exact (matcher_wider_tolerance [slide_12x; slide_10_6x] (IntNum 10) f10 f1 f10
           slide_10_6x eq_refl eq_refl eq_refl).
Defined.

(** ** More on the Scanner *)

Lemma scanner_needs_a_directory_aux (w : world) (basedir : pypath) :
  match lookup_node (root w) (resolve (cwd w) basedir) with
  | Some (Dir _) => ∃ imageList w', pydicom_extract_information basedir w = (Ok imageList, w')
  | Some (File _) => pydicom_extract_information basedir w = (Raise NotADirectoryError, w)
  | None => pydicom_extract_information basedir w = (Raise FileNotFoundError, w)
  end.
Proof.
  destruct (lookup_node (root w) (resolve (cwd w) basedir)) as [[c|es]|] eqn:E;
    unfold pydicom_extract_information; rewrite run_bind; unfold chdir at 1;
    rewrite E; cbv beta iota; [done| |done].
  rewrite run_bind. unfold glob_star at 1. rewrite run_bind.
  unfold stat at 1. cbn [cwd root resolve]. rewrite app_nil_r, E. cbv beta iota.
  rewrite run_ret. cbv beta iota. rewrite run_bind.
  assert (∀ names acc good w0, ∃ r w1, scan_loop names acc good w0 = (Ok r, w1)) as Hloop.
  { induction names as [|name names IH]; intros acc good w0; [by eexists _, _|].
    cbn [scan_loop]. rewrite run_bind. unfold print at 1. rewrite run_emit.
    cbv beta iota. rewrite run_bind.
    assert (∃ x w1, extract_image_info_dicom name (add_trace w0 [Print [Str name]])
                    = (Ok x, w1)) as (x & w1 & ->).
    { unfold extract_image_info_dicom, try_except.
      destruct (_ ≫= _) as [[a|e] w1]; [by eexists _, _|].
      rewrite run_bind. unfold print at 1. rewrite run_emit. by eexists _, _. }
    cbv beta iota. destruct x; apply IH. }
  destruct (Hloop (List.filter (glob_match_star "dcm") es.*1) [] 0%Z
              (World (resolve (cwd w) basedir) (root w) (trace w)))
    as ([imageList good] & w1 & ->).
  cbv beta iota. rewrite run_bind. unfold print at 1. rewrite run_emit.
  cbv beta iota. by eexists _, _.
Qed.

(** X9: the scan of a path that is no directory raises at [os.chdir],
    before anything is printed, and leaves the process where it was:
    [FileNotFoundError] when nothing is there, [NotADirectoryError] for a
    regular file; the scan of a directory always returns. *)
Theorem scanner_needs_a_directory (w : world) (basedir : pypath) :
  match lookup_node (root w) (resolve (cwd w) basedir) with
  | Some (Dir _) => ∃ imageList w', pydicom_extract_information basedir w = (Ok imageList, w')
  | Some (File _) => pydicom_extract_information basedir w = (Raise NotADirectoryError, w)
  | None => pydicom_extract_information basedir w = (Raise FileNotFoundError, w)
  end.
Proof. apply scanner_needs_a_directory_aux. Qed.

Lemma records_of_filenames_sublist es :
  img.filename <$> records_of es `sublist_of` es.*1.
Proof.
  unfold records_of. induction es as [|[name n] es IH]; [done|].
  cbn [omap list_omap fmap list_fmap fst snd].
  destruct (glob_match_star "dcm" name); [|by apply sublist_cons].
  destruct (record_of name n) as [r|] eqn:Hr; [|by apply sublist_cons].
  cbn [fmap list_fmap]. rewrite (record_of_filename _ _ _ Hr).
  by apply sublist_skip.
Qed.

(** X10: the records of one scan bear pairwise distinct file names, in
    the order of the directory listing, and the count that the scan prints
    last is the number of records it returns. *)
Theorem scanner_names_distinct_and_counted (w : world) (basedir : pypath)
    (es : list (string * node)) :
  lookup_node (root w) (resolve (cwd w) basedir) = Some (Dir es) →
  NoDup es.*1 →
  ∃ imageList w',
    pydicom_extract_information basedir w = (Ok imageList, w') ∧
    NoDup (img.filename <$> imageList) ∧
    img.filename <$> imageList `sublist_of` es.*1 ∧
    last (trace w')
    = Some (Print [Str "good image count:"; Int (Z.of_nat (length imageList))]).
Proof.
  intros Hd Hnd. eexists _, _.
  split; [by apply pydicom_extract_information_spec|].
  split; [|split].
  - eapply sublist_NoDup; [done | apply records_of_filenames_sublist].
  - apply records_of_filenames_sublist.
  - cbn [trace]. by rewrite (assoc_L (++)), last_snoc.
Qed.

Lemma scanner_names_distinct_and_counted_witness :
  lookup_node (root sample_world) (resolve (cwd sample_world) (Abs ["data"]))
  = Some (Dir slide_entries) ∧
  NoDup slide_entries.*1 ∧
  ∃ imageList w',
    pydicom_extract_information (Abs ["data"]) sample_world = (Ok imageList, w') ∧
    NoDup (img.filename <$> imageList) ∧
    img.filename <$> imageList `sublist_of` slide_entries.*1 ∧
    last (trace w')
    = Some (Print [Str "good image count:"; Int (Z.of_nat (length imageList))]).
Proof.
  assert (NoDup slide_entries.*1) as Hnd by by_decision.
  split; [reflexivity|]. split; [exact Hnd|].
  exact (scanner_names_distinct_and_counted sample_world (Abs ["data"]) slide_entries
           eq_refl Hnd).
Defined.

(** X11: a scan leaves the process in the scanned directory, so a second
    scan with the same absolute path returns the same records, while a
    second scan with the same relative path looks for that path inside the
    directory just scanned and raises when it is not there. *)
Theorem scanner_twice (w : world) (basedir : pypath) (es : list (string * node)) :
  lookup_node (root w) (resolve (cwd w) basedir) = Some (Dir es) →
  NoDup es.*1 →
  ∃ w1, pydicom_extract_information basedir w = (Ok (records_of es), w1) ∧
    (∀ p, basedir = Abs p →
       ∃ w2, pydicom_extract_information basedir w1 = (Ok (records_of es), w2) ∧
             cwd w2 = cwd w1) ∧
    (∀ q, basedir = Rel q →
       lookup_node (root w) ((cwd w ++ q) ++ q) = None →
       pydicom_extract_information basedir w1 = (Raise FileNotFoundError, w1)).
Proof.
  intros Hd Hnd. eexists.
  split; [by apply pydicom_extract_information_spec|]. split.
  - intros p ->. eexists. split.
    + by apply pydicom_extract_information_spec.
    + done.
  - intros q -> Hq.
    pose proof (scanner_needs_a_directory_aux
                  (World (cwd w ++ q) (root w)
                     (trace w ++ scan_prints es ++
                      [Print [Str "good image count:";
                              Int (Z.of_nat (length (records_of es)))]]))
                  (Rel q)) as H.
    cbn [cwd root resolve] in H. by rewrite Hq in H.
Qed.

Lemma scanner_twice_witness :
  lookup_node (root (World [] sample_root []))
    (resolve (cwd (World [] sample_root [])) (Rel ["data"])) = Some (Dir slide_entries) ∧
  NoDup slide_entries.*1 ∧
  ∃ w1, pydicom_extract_information (Rel ["data"]) (World [] sample_root [])
        = (Ok (records_of slide_entries), w1) ∧
    (∀ p, Rel ["data"] = Abs p →
       ∃ w2, pydicom_extract_information (Rel ["data"]) w1
             = (Ok (records_of slide_entries), w2) ∧ cwd w2 = cwd w1) ∧
    (∀ q, Rel ["data"] = Rel q →
       lookup_node (root (World [] sample_root [])) ((cwd (World [] sample_root []) ++ q) ++ q)
       = None →
       pydicom_extract_information (Rel ["data"]) w1 = (Raise FileNotFoundError, w1)).
Proof.
  assert (NoDup slide_entries.*1) as Hnd by by_decision.
  split; [reflexivity|]. split; [exact Hnd|].
  exact (scanner_twice (World [] sample_root []) (Rel ["data"]) slide_entries
           eq_refl Hnd).
Defined.

(** X12: the extraction of one file never raises, whatever the path leads
    to (nothing, a directory, a file that is no DICOM, a header without
    the attributes), and never changes the working directory or the file
    system: it returns the values, with ['size'] the product of the total
    rows and columns, and prints nothing, or it prints the diagnostic and
    returns the failure tuple. *)
Theorem extraction_never_raises (w : world) (dicom_file : string) :
  (∃ mag cols rows icols irows,
     extract_image_info_dicom dicom_file w
     = (Ok (Extracted (rows * cols) mag cols rows icols irows), w)) ∨
  extract_image_info_dicom dicom_file w
  = (Ok ExtractionFailed,
     add_trace w [Print [Str "error extracting image metadata from:"; Str dicom_file]]).
Proof.
  unfold extract_image_info_dicom, try_except, dcmread, stat, mbind, M_bind.
  cbv beta.
  destruct (lookup_node (root w) (resolve (cwd w) (Rel [dicom_file])))
    as [[[ds|]|es]|]; [|by right..].
  destruct ds as [[mag|] [cols|] [rows|] [icols|] [irows|] at_]; try (by right).
  left. by exists mag, cols, rows, icols, irows.
Qed.

(** ** More on the directory-shape probe *)

Lemma forallb_folder_entry es :
  forallb folder_entry es = true ↔ ∀ name n, (name, n) ∈ es → ∃ k, n = Dir k.
Proof.
  rewrite forallb_forall. split.
  - intros H name n Hin%list_elem_of_In. specialize (H _ Hin).
    unfold folder_entry in H. cbn [snd] in H. destruct n; [done | by eexists].
  - intros H [name n] Hin%list_elem_of_In. destruct (H _ _ Hin) as [k ->]. done.
Qed.

(** X13: the probe of an existing directory returns without touching the
    working directory or the file system. Its answer is [SERIES] exactly
    when the directory is not empty and holds folders only; an empty
    directory is [FLAT]; it logs only for the answer [UNKNOWN]. *)
Theorem probe_classifies (w : world) (input_dir : pypath)
    (es : list (string * node)) :
  lookup_node (root w) (resolve (cwd w) input_dir) = Some (Dir es) →
  NoDup es.*1 →
  ∃ answer,
    scanSourceDir input_dir w
    = (Ok answer,
       add_trace w (if answer is UNKNOWN
                    then [Verbose [Str "unknown directory structure: OnlyDicomFiles: ";
                                   Bool false; Str " OnlyFolders: "; Bool false]]
                    else [])) ∧
    (es = [] → answer = FLAT) ∧
    (answer = SERIES ↔ es ≠ [] ∧ ∀ name n, (name, n) ∈ es → ∃ k, n = Dir k) ∧
    (answer = UNKNOWN ↔
       (∃ name n, (name, n) ∈ es ∧ flat_entry (name, n) = false) ∧
       (∃ name c, (name, File c) ∈ es)).
Proof.
  intros Hd Hnd. unfold scanSourceDir.
  rewrite run_bind. unfold listdir at 1. rewrite run_bind. unfold stat at 1.
  cbv beta iota. rewrite Hd, run_ret. cbv beta iota. rewrite run_bind.
  rewrite (scanSourceDir_loop_spec w input_dir es es) by
    (try done; intros [c n] Hin; by apply entry_elem).
  cbv beta iota. cbn [andb].
  destruct (forallb flat_entry es) eqn:Hflat.
  { exists FLAT. rewrite run_ret, add_trace_nil. split; [done|]. split; [done|].
    split; [split; [done|]|split; [done|]].
    - intros [Hne Hall]. destruct es as [|[name n] es']; [done|].
      cbn [forallb] in Hflat. apply andb_prop in Hflat as [Hf _].
      destruct (Hall name n) as [k ->]; [left|]. done.
    - intros [(name & n & Hin & Hf) _].
      rewrite forallb_forall in Hflat.
      specialize (Hflat _ (proj1 (list_elem_of_In _ _) Hin)). congruence. }
  assert (es ≠ []) as Hne by by intros ->.
  assert (∃ name n, (name, n) ∈ es ∧ flat_entry (name, n) = false) as Hnf.
  { clear -Hflat. induction es as [|[name n] es IH]; [done|].
    cbn [forallb] in Hflat. apply andb_false_iff in Hflat as [Hf|Hf].
    - exists name, n. split; [left | done].
    - destruct (IH Hf) as (name' & n' & Hin & Hf'). exists name', n'.
      split; [by right | done]. }
  destruct (forallb folder_entry es) eqn:Hfold.
  - exists SERIES. rewrite run_ret, add_trace_nil. split; [done|]. split; [done|].
    split; [split; [|done]|split; [done|]].
    + intros _. split; [done|]. by apply forallb_folder_entry.
    + intros [_ (name & c & Hin)].
      destruct (proj1 (forallb_folder_entry es) Hfold _ _ Hin) as [k [=]].
  - exists UNKNOWN. rewrite run_bind, run_v. cbv beta iota. rewrite run_ret.
    split; [done|]. split; [done|].
    split; [split; [done|]|split; [|done]].
    + intros [_ Hall%forallb_folder_entry]. congruence.
    + intros _. split; [done|].
      clear -Hfold. induction es as [|[name n] es IH]; [done|].
      cbn [forallb] in Hfold. apply andb_false_iff in Hfold as [Hf|Hf].
      * destruct n as [c|k]; [|done]. exists name, c. left.
      * destruct (IH Hf) as (name' & c & Hin). exists name', c. by right.
Qed.

Lemma probe_classifies_witness :
  lookup_node (root sample_world) (resolve (cwd sample_world) (Abs ["data"]))
  = Some (Dir slide_entries) ∧
  NoDup slide_entries.*1 ∧
  ∃ answer,
    scanSourceDir (Abs ["data"]) sample_world
    = (Ok answer,
       add_trace sample_world
         (if answer is UNKNOWN
          then [Verbose [Str "unknown directory structure: OnlyDicomFiles: ";
                         Bool false; Str " OnlyFolders: "; Bool false]]
          else [])) ∧
    (slide_entries = [] → answer = FLAT) ∧
    (answer = SERIES ↔
       slide_entries ≠ [] ∧ ∀ name n, (name, n) ∈ slide_entries → ∃ k, n = Dir k) ∧
    (answer = UNKNOWN ↔
       (∃ name n, (name, n) ∈ slide_entries ∧ flat_entry (name, n) = false) ∧
       (∃ name c, (name, File c) ∈ slide_entries)).
Proof.
  assert (NoDup slide_entries.*1) as Hnd by by_decision.
  split; [reflexivity|]. split; [exact Hnd|].
  exact (probe_classifies sample_world (Abs ["data"]) slide_entries eq_refl Hnd).
Defined.

(** ** Meta placeholders: [updateMeta] *)

Lemma run_listdir p w :
  listdir p w
  = match lookup_node (root w) (resolve (cwd w) p) with
    | Some (Dir es) => (Ok (es.*1), w)
    | Some (File _) => (Raise NotADirectoryError, w)
    | None => (Raise FileNotFoundError, w)
    end.
Proof.
  unfold listdir, stat, mbind, M_bind. cbv beta iota.
  by destruct (lookup_node _ _) as [[|]|].
Qed.

Lemma run_dcmread p w :
  dcmread p w
  = match lookup_node (root w) (resolve (cwd w) p) with
    | Some (File (Some ds)) => (Ok ds, w)
    | Some (File None) => (Raise InvalidDicomError, w)
    | Some (Dir _) => (Raise IsADirectoryError, w)
    | None => (Raise FileNotFoundError, w)
    end.
Proof.
  unfold dcmread, stat, mbind, M_bind. cbv beta iota.
  by destruct (lookup_node _ _) as [[[|]|]|].
Qed.

Lemma updateMeta_loop_spec ds items meta_update w :
  updateMeta_loop ds items meta_update w
  = (Ok (meta_update ++ resolved_placeholders ds items),
     add_trace w (missing_field_logs ds items)).
Proof.
  revert meta_update w. induction items as [|[k val] items IH]; intros acc w.
  - cbn. by rewrite app_nil_r, add_trace_nil.
  - cbn [updateMeta_loop]. unfold resolved_placeholders, missing_field_logs.
    cbn [omap list_omap mbind list_bind fst snd].
    fold (resolved_placeholders ds items). fold (missing_field_logs ds items).
    destruct (startswith val "%"); [|by rewrite IH].
    destruct (attrs ds !! tail_of val) as [x|] eqn:E; cbn [default].
    + rewrite IH. by rewrite <- (assoc_L (++)).
    + rewrite run_bind, run_v. cbv beta iota. rewrite IH.
      unfold add_trace. cbn [cwd root trace].
      by rewrite <- !(assoc_L (++)).
Qed.

(** X16: the lookup of the placeholders never raises: it returns, for the
    values that begin with [%] and in their order, the key with the
    attribute named after the [%], or with the empty string when the
    dataset has no such attribute, which it logs; the other keys are left
    out of the update. *)
Theorem placeholders_resolve_or_empty (ds : dataset) (items : list (string * string))
    (w : world) :
  updateMeta_loop ds items [] w
  = (Ok (resolved_placeholders ds items), add_trace w (missing_field_logs ds items)) ∧
  (resolved_placeholders ds items).*1
  = (List.filter (fun kv => startswith kv.2 "%") items).*1 ∧
  ∀ k x, (k, x) ∈ resolved_placeholders ds items →
    ∃ val, (k, val) ∈ items ∧ startswith val "%" = true ∧
      (attrs ds !! tail_of val = Some x ∨ (attrs ds !! tail_of val = None ∧ x = "")).
Proof.
  split; [apply (updateMeta_loop_spec ds items [] w)|]. split.
  - unfold resolved_placeholders. induction items as [|[k val] items IH]; [done|].
    cbn [omap list_omap List.filter fst snd].
    destruct (startswith val "%"); cbn [fmap list_fmap fst]; by rewrite ?IH.
  - intros k x. unfold resolved_placeholders. rewrite list_elem_of_omap.
    intros ([k' val] & Hin & H). cbn [fst snd] in H.
    destruct (startswith val "%") eqn:Hs; [|done]. injection H as -> <-.
    exists val. split; [done|]. split; [done|].
    destruct (attrs ds !! tail_of val); [by left | by right].
Qed.

(** X17: [updateMeta] touches the file system only when some meta value
    begins with [%]; then it reads the first entry of the data's folder
    and nothing else: it raises [FileNotFoundError] without the folder,
    [IndexError] for an empty folder, [IsADirectoryError] or
    [InvalidDicomError] when the first entry is a folder or no DICOM file,
    and otherwise returns, leaving the file system and the working
    directory as they were. *)
Theorem updateMeta_reads_first_entry (dicom_data : instance_data) (w : world) :
  if existsb (fun kv => startswith kv.2 "%") (data_meta dicom_data) then
    match lookup_node (root w) (abspath dicom_data) with
    | None => updateMeta dicom_data w = (Raise FileNotFoundError, w)
    | Some (File _) => updateMeta dicom_data w = (Raise NotADirectoryError, w)
    | Some (Dir []) => updateMeta dicom_data w = (Raise IndexError, w)
    | Some (Dir ((_, Dir _) :: _)) => updateMeta dicom_data w = (Raise IsADirectoryError, w)
    | Some (Dir ((_, File None) :: _)) =>
        updateMeta dicom_data w = (Raise InvalidDicomError, w)
    | Some (Dir ((_, File (Some ds)) :: _)) =>
        ∃ d' w', updateMeta dicom_data w = (Ok d', w') ∧
          abspath d' = abspath dicom_data ∧
          cwd w' = cwd w ∧ root w' = root w ∧
          trace w' = trace w ++ missing_field_logs ds (data_meta dicom_data) ++
                     [MetaUpdate (abspath d') (data_meta d')]
    end
  else updateMeta dicom_data w = (Ok dicom_data, w).
Proof.
  unfold updateMeta.
  destruct (existsb _ (data_meta dicom_data)); cbn [negb]; [|done].
  rewrite run_bind, run_listdir. cbn [resolve].
  destruct (lookup_node (root w) (abspath dicom_data)) as [[c|es]|] eqn:E;
    [done| |done].
  cbv beta iota.
  destruct es as [|[name n] es]; [by rewrite run_bind, @run_lift|].
  cbn [fmap list_fmap fst]. rewrite run_bind, @run_lift.
  cbn [getitem lookup list_lookup]. cbv beta iota.
  rewrite run_bind, run_dcmread. cbn [path_join resolve].
  rewrite (lookup_node_child _ _ _ name E). cbn [entry].
  rewrite String.eqb_refl.
  destruct n as [[ds|]|k]; [|done..].
  cbv beta iota.
  rewrite run_bind, updateMeta_loop_spec. cbv beta iota.
  rewrite run_bind, run_emit. cbv beta iota. rewrite run_ret.
  eexists _, _. split; [reflexivity|]. cbn [abspath cwd root trace add_trace].
  repeat split. by rewrite <- (assoc_L (++)).
Qed.

(** ** The importer's [task] *)

Lemma run_scanSourceDir w input_dir es :
  lookup_node (root w) (resolve (cwd w) input_dir) = Some (Dir es) →
  NoDup es.*1 →
  scanSourceDir input_dir w = (Ok (structure_of es), add_trace w (probe_events es)).
Proof.
  intros Hd Hnd. unfold scanSourceDir.
  rewrite run_bind, run_listdir, Hd. cbv beta iota. rewrite run_bind.
  rewrite (scanSourceDir_loop_spec w input_dir es es) by
    (try done; intros [c n] Hin; by apply entry_elem).
  cbv beta iota. cbn [andb]. unfold probe_events, structure_of.
  destruct (forallb flat_entry es); [by rewrite run_ret, add_trace_nil|].
  destruct (forallb folder_entry es); [by rewrite run_ret, add_trace_nil|].
  by rewrite run_bind, run_v.
Qed.

Lemma add_trace_add_trace w t1 t2 :
  add_trace (add_trace w t1) t2 = add_trace w (t1 ++ t2).
Proof. unfold add_trace. cbn [cwd root trace]. by rewrite <- (assoc_L (++)). Qed.

Section TaskFacts.
Variable self : config.

(** [task] up to the probe. *)
Lemma run_task_prelude (k : M unit) w :
  (v [Str "> WsiDicomImporter task"];;
   v [Str "> source input dir: "; Path (source_dir self); Str " --> ";
      Path (Abs (source_of self))];;
   v [Str "> import sort  dir: "; Path (import_dir self); Str " --> ";
      Path (Abs (import_of self))];;
   v [];;
   v [Str "> importing dicom whole slide imaging data"];;
   k) w
  = k (add_trace w (task_prelude self)).
Proof.
  do 5 (step run_v). rewrite !add_trace_add_trace. reflexivity.
Qed.

Lemma run_task w es :
  lookup_node (root w) (source_of self) = Some (Dir es) →
  NoDup es.*1 →
  task self w
  = match structure_of es with
    | FLAT => importSingleInstance self (source_of self) (import_of self)
    | SERIES => importMultipleInstances self (source_of self) (import_of self)
    | UNKNOWN => raise ValueError
    end (add_trace w (task_prelude self ++ probe_events es ++
           [Print [Str "> source dir structure: ";
                   Str (match structure_of es with
                        | FLAT => "InputDirStructure.FLAT"
                        | SERIES => "InputDirStructure.SERIES"
                        | UNKNOWN => "InputDirStructure.UNKNOWN"
                        end)]])).
Proof.
  intros Hd Hnd. unfold task. cbv zeta.
  fold (source_of self). fold (import_of self).
  rewrite run_task_prelude.
  rewrite run_bind, (run_scanSourceDir _ _ es) by done. cbv beta iota.
  unfold print. step run_emit. rewrite !add_trace_add_trace. reflexivity.
Qed.

End TaskFacts.

(** X18: a source directory that holds a regular file beside an entry
    that is no [.dcm] file is of unknown structure: [task] raises
    [ValueError] after the log of the probe; it makes no instance and
    leaves the file system and the working directory as they were. *)
Theorem task_unknown_structure_raises (self : config) (w : world)
    (es : list (string * node)) :
  lookup_node (root w) (source_of self) = Some (Dir es) →
  NoDup es.*1 →
  forallb flat_entry es = false →
  forallb folder_entry es = false →
  task self w
  = (Raise ValueError,
     add_trace w
       (task_prelude self ++
        [Verbose [Str "unknown directory structure: OnlyDicomFiles: ";
                  Bool false; Str " OnlyFolders: "; Bool false];
         Print [Str "> source dir structure: "; Str "InputDirStructure.UNKNOWN"]])).
Proof.
  intros Hd Hnd Hflat Hfold. rewrite (run_task self w es Hd Hnd).
  unfold probe_events, structure_of. by rewrite Hflat, Hfold.
Qed.

Lemma task_unknown_structure_raises_witness :
  task sample_config mixed_world
  = (Raise ValueError,
     add_trace mixed_world
       (task_prelude sample_config ++
        [Verbose [Str "unknown directory structure: OnlyDicomFiles: ";
                  Bool false; Str " OnlyFolders: "; Bool false];
         Print [Str "> source dir structure: "; Str "InputDirStructure.UNKNOWN"]])).
Proof.
  refine (task_unknown_structure_raises sample_config mixed_world
            [ ("a", Dir []); ("level0.dcm", File (Some header_40x)) ]
            eq_refl _ eq_refl eq_refl).
  by_decision.
Defined.

(** X19: [task] needs the source directory: when it is missing, or is a
    regular file, the probe raises [FileNotFoundError], or
    [NotADirectoryError], after the five opening log lines and before any
    instance is made. *)
Theorem task_needs_source_directory (self : config) (w : world) :
  lookup_node (root w) (source_of self) = None ∨
    (∃ c, lookup_node (root w) (source_of self) = Some (File c)) →
  task self w
  = (Raise (if lookup_node (root w) (source_of self) is None
            then FileNotFoundError else NotADirectoryError),
     add_trace w (task_prelude self)).
Proof.
  intros H. unfold task. cbv zeta. fold (source_of self). fold (import_of self).
  rewrite run_task_prelude. unfold scanSourceDir.
  rewrite !run_bind, run_listdir. cbn [cwd root resolve add_trace].
  by destruct H as [->|[c ->]].
Qed.

Lemma task_needs_source_directory_witness :
  task sample_config (World [] (Dir [("in", File None)]) [])
  = (Raise NotADirectoryError,
     add_trace (World [] (Dir [("in", File None)]) []) (task_prelude sample_config)).
Proof.
  refine (task_needs_source_directory sample_config
            (World [] (Dir [("in", File None)]) []) _).
  right. by exists None.
Defined.

(** X14: a flat source whose levels all miss the target: [task] logs the
    diagnostic and returns; it has made the instance [inst0] but no
    instance data, no copy and no confirmation, the file system is as it
    was, and the working directory is now the source directory. *)
Theorem task_flat_without_match (self : config) (w : world)
    (es : list (string * node)) (tiledImages : list img.t) :
  lookup_node (root w) (source_of self) = Some (Dir es) →
  NoDup es.*1 →
  forallb flat_entry es = true →
  (analyze_image_list (records_of es)).2 = Ok tiledImages →
  return_magnitude_match tiledImages (IntNum (magnification self)) (magTolerance self)
  = Ok None →
  task self w
  = (Ok (),
     World (source_of self) (root w)
       (trace w ++ task_prelude self ++
        [Print [Str "> source dir structure: "; Str "InputDirStructure.FLAT"];
         Verbose [Str "> importing single instance"];
         AddInstance (import_of self) "inst0"] ++
        resolve_events es tiledImages ++
        [Verbose [Str "no image matching the target magnification found"]])).
Proof.
  intros Hd Hnd Hflat Ha Hm. rewrite (run_task self w es Hd Hnd).
  unfold probe_events, structure_of. rewrite Hflat.
  rewrite (importSingleInstance_no_match self _ _ _ es tiledImages) by done.
  cbn [root trace add_trace app]. f_equal. f_equal.
  rewrite <- !(assoc_L (++)). reflexivity.
Qed.

Lemma task_flat_without_match_witness :
  task sample_config empty_flat_world
  = (Ok (),
     World ["in"] (root empty_flat_world)
       (task_prelude sample_config ++
        [Print [Str "> source dir structure: "; Str "InputDirStructure.FLAT"];
         Verbose [Str "> importing single instance"];
         AddInstance ["out"] "inst0"] ++
        resolve_events [] [] ++
        [Verbose [Str "no image matching the target magnification found"]])).
Proof.
  refine (task_flat_without_match sample_config empty_flat_world [] []
            eq_refl _ eq_refl eq_refl eq_refl).
  constructor.
Defined.

(** ** The multi-instance path *)

Lemma importMultipleInstances_loop_miss self w input_dir sorted_dir instances_n
    i sid rest es tiledImages :
  lookup_node (root w) (input_dir ++ [sid]) = Some (Dir es) →
  NoDup es.*1 →
  (analyze_image_list (records_of es)).2 = Ok tiledImages →
  return_magnitude_match tiledImages (IntNum (magnification self)) (magTolerance self)
  = Ok None →
  ∃ e r,
    importMultipleInstances_loop self input_dir sorted_dir instances_n
      ((i, sid) :: rest) w
    = (Raise e,
       World (input_dir ++ [sid]) r
         (trace w ++
          [Verbose [Str "> importing instance ("; Int (Z.of_nat i + 1); Str "/";
                    Int (Z.of_nat instances_n); Str "): "; Str sid];
           AddInstance (sorted_dir ++ [sid]) sid] ++
          resolve_events es tiledImages ++
          [Verbose [Str "no image matching the desired target magnification was found in directory";
                    Path (Abs input_dir)];
           NewInstanceData (sorted_dir ++ [sid; "dicom"]) (meta self)])) ∧
    (e = TypeError ∧
       (if lookup_node (root w) (sorted_dir ++ [sid; "dicom"]) is Some _
        then r = root w
        else fs_makedirs (root w) (sorted_dir ++ [sid; "dicom"]) = Ok r)
     ∨ r = root w ∧ lookup_node (root w) (sorted_dir ++ [sid; "dicom"]) = None ∧
       fs_makedirs (root w) (sorted_dir ++ [sid; "dicom"]) = Raise e).
Proof.
  intros Hd Hnd Ha Hm. cbn [importMultipleInstances_loop].
  step run_v. step run_emit.
  cbn [path_join resolve app].
  rewrite run_bind, (pydicom_extract_information_spec _ _ es) by done.
  cbv beta iota.
  step @run_lift. rewrite Ha. cbv beta iota.
  step run_v. step @run_lift. rewrite Hm. cbv beta iota.
  step run_v. step run_InstanceData. cbn [abspath].
  step run_path_exists. cbn [cwd root trace resolve add_trace].
  replace ((sorted_dir ++ [sid]) ++ ["dicom"]) with (sorted_dir ++ [sid; "dicom"])
    by (by rewrite <- (assoc_L (++))).
  destruct (lookup_node (root w) (sorted_dir ++ [sid; "dicom"])) as [n|] eqn:El.
  - rewrite bool_decide_true by eauto. cbn [negb]. step @run_ret.
    rewrite run_bind, @run_lift. cbn [filename_of].
    exists TypeError, (root w). split; [|by left].
    unfold add_trace, resolve_events. cbn [cwd root trace].
    by rewrite <- !(assoc_L (++)).
  - rewrite bool_decide_false by (by intros [? ?]). cbn [negb].
    rewrite run_bind. unfold makedirs. cbn [cwd root trace resolve add_trace].
    destruct (fs_makedirs (root w) (sorted_dir ++ [sid; "dicom"])) as [r|e] eqn:Em.
    + cbv beta iota. rewrite run_bind, @run_lift. cbn [filename_of].
      exists TypeError, r. split; [|by left].
      unfold resolve_events. by rewrite <- !(assoc_L (++)).
    + exists e, (root w). split; [|by right].
      unfold add_trace, resolve_events. cbn [cwd root trace].
      by rewrite <- !(assoc_L (++)).
Qed.

(** X15: when the first listed series folder has no level within the
    tolerance, [importMultipleInstances] raises in that first iteration:
    the trace ends with the diagnostic and the new instance data of that
    folder, so no later folder is visited, nothing is copied and nothing
    confirmed. The exception is [TypeError], from
    [matchingImage['filename']], unless [os.makedirs] of the output folder
    fails first. *)
Theorem series_import_stops_at_first_miss (self : config) (w : world)
    (input_dir sorted_dir : path) (sid : string) (es : list (string * node))
    (rest : list (string * node)) (tiledImages : list img.t) :
  lookup_node (root w) input_dir = Some (Dir ((sid, Dir es) :: rest)) →
  NoDup es.*1 →
  (analyze_image_list (records_of es)).2 = Ok tiledImages →
  return_magnitude_match tiledImages (IntNum (magnification self)) (magTolerance self)
  = Ok None →
  ∃ e r,
    importMultipleInstances self input_dir sorted_dir w
    = (Raise e,
       World (input_dir ++ [sid]) r
         (trace w ++
          [Verbose [Str "> importing instance ("; Int 1; Str "/";
                    Int (Z.of_nat (S (length rest))); Str "): "; Str sid];
           AddInstance (sorted_dir ++ [sid]) sid] ++
          resolve_events es tiledImages ++
          [Verbose [Str "no image matching the desired target magnification was found in directory";
                    Path (Abs input_dir)];
           NewInstanceData (sorted_dir ++ [sid; "dicom"]) (meta self)])) ∧
    (e = TypeError ∧
       (if lookup_node (root w) (sorted_dir ++ [sid; "dicom"]) is Some _
        then r = root w
        else fs_makedirs (root w) (sorted_dir ++ [sid; "dicom"]) = Ok r)
     ∨ r = root w ∧ lookup_node (root w) (sorted_dir ++ [sid; "dicom"]) = None ∧
       fs_makedirs (root w) (sorted_dir ++ [sid; "dicom"]) = Raise e).
Proof.
  intros Hd Hnd Ha Hm. unfold importMultipleInstances.
  rewrite run_bind, run_listdir. cbn [resolve]. rewrite Hd. cbv beta iota.
  rewrite run_bind, run_listdir. cbn [resolve]. rewrite Hd. cbv beta iota.
  cbn [fmap list_fmap fst imap length].
  rewrite length_fmap.
  apply (importMultipleInstances_loop_miss self w input_dir sorted_dir
           (S (length rest)) 0 sid _ es tiledImages); [|done..].
  rewrite (lookup_node_child _ _ _ sid Hd). cbn [entry].
  by rewrite String.eqb_refl.
Qed.

Lemma series_import_stops_at_first_miss_witness :
  ∃ e r,
    importMultipleInstances sample_config ["in"] ["out"] series_world
    = (Raise e,
       World ["in"; "a"] r
         ([Verbose [Str "> importing instance ("; Int 1; Str "/";
                    Int 2; Str "): "; Str "a"];
           AddInstance ["out"; "a"] "a"] ++
          resolve_events [] [] ++
          [Verbose [Str "no image matching the desired target magnification was found in directory";
                    Path (Abs ["in"])];
           NewInstanceData ["out"; "a"; "dicom"] [("mod", "%Modality")]])) ∧
    (e = TypeError ∧
       (if lookup_node series_root ["out"; "a"; "dicom"] is Some _
        then r = series_root
        else fs_makedirs series_root ["out"; "a"; "dicom"] = Ok r)
     ∨ r = series_root ∧ lookup_node series_root ["out"; "a"; "dicom"] = None ∧
       fs_makedirs series_root ["out"; "a"; "dicom"] = Raise e).
Proof.
  refine (series_import_stops_at_first_miss sample_config series_world
            ["in"] ["out"] "a" []
            [("b", Dir [ ("level0.dcm", File (Some header_40x));
                         ("level1.dcm", File (Some header_10x)) ])] []
            eq_refl _ eq_refl eq_refl).
  constructor.
Defined.

(** ** The single-instance path with a match *)

Lemma entry_set_entry c n es : entry c (set_entry c n es) = Some n.
Proof.
  induction es as [|[c' n'] es IH]; cbn [set_entry entry].
  - by rewrite String.eqb_refl.
  - destruct (String.eqb_spec c c') as [->|Hne]; cbn [entry].
    + by rewrite String.eqb_refl.
    + by destruct (String.eqb_spec c c').
Qed.

Lemma fs_write_child r p es c content :
  lookup_node r p = Some (Dir es) →
  (∀ k, entry c es ≠ Some (Dir k)) →
  ∃ r', fs_write r (p ++ [c]) content = Ok r' ∧
    lookup_node r' p = Some (Dir (set_entry c (File content) es)).
Proof.
  revert r. induction p as [|c0 p IH]; intros r Hl Hc.
  - cbn in Hl. injection Hl as ->. cbn [app fs_write].
    eexists. split; [|reflexivity].
    destruct (entry c es) as [[|k]|] eqn:E; [done| |done].
    by destruct (Hc k).
  - cbn [lookup_node] in Hl. destruct r as [|es0]; [done|].
    destruct (entry c0 es0) as [child|] eqn:E0; [|done]. cbn in Hl.
    destruct (IH child Hl Hc) as (child' & Hw & Hl').
    cbn [app fs_write]. rewrite E0.
    destruct (p ++ [c]) as [|c1 p1] eqn:Ep; [by destruct p|].
    rewrite Hw. eexists. split; [reflexivity|].
    cbn [lookup_node]. by rewrite entry_set_entry.
Qed.

Lemma return_magnitude_match_elem levels targetMag tol r :
  return_magnitude_match levels targetMag tol = Ok (Some r) → r ∈ levels.
Proof.
  intros H. destruct (py_float targetMag) as [t|e] eqn:Et.
  - destruct (return_magnitude_match_spec targetMag t tol levels Et) as (m & Hm & Hs).
    rewrite Hm in H. injection H as ->.
    destruct Hs as (before & after & -> & _). set_solver.
  - destruct levels as [|r0 l]; [done|].
    pose proof (match_loop_Raise targetMag tol e [] r0 l Et) as Hr.
    unfold return_magnitude_match in H. cbn [app length] in Hr.
    cbn [length] in H. congruence.
Qed.

Lemma analyzed_level_file es tiledImages r :
  NoDup es.*1 →
  (analyze_image_list (records_of es)).2 = Ok tiledImages →
  r ∈ tiledImages →
  ∃ ds, entry (img.filename r) es = Some (File (Some ds)).
Proof.
  intros Hnd Ha Hr. rewrite analyze_image_list_sorted in Ha. cbn [snd] in Ha.
  apply levels_of_sorted_Ok in Ha.
  apply list_elem_of_lookup in Hr as [i Hi].
  destruct (Forall2_lookup_r _ _ _ _ _ Ha Hi) as (r0 & Hi0 & Hf & _).
  apply list_elem_of_lookup_2 in Hi0.
  apply list_elem_of_In, filter_In in Hi0 as [Hi0 _].
  apply list_elem_of_In in Hi0. rewrite sort_desc_Permutation in Hi0.
  apply elem_of_records_of in Hi0 as (n & Hin & _ & Hrec).
  apply record_of_populated in Hrec as (ds & -> & _).
  exists ds. rewrite Hf. by apply entry_elem.
Qed.

Lemma run_updateMeta_first d w name ds rest :
  lookup_node (root w) (abspath d) = Some (Dir ((name, File (Some ds)) :: rest)) →
  ∃ m',
    updateMeta d w
    = (Ok {| abspath := abspath d; data_meta := m' |},
       add_trace w (if existsb (fun kv => startswith kv.2 "%") (data_meta d)
                    then missing_field_logs ds (data_meta d) ++
                         [MetaUpdate (abspath d) m']
                    else [])).
Proof.
  intros E. unfold updateMeta.
  destruct (existsb _ (data_meta d)); cbn [negb].
  - rewrite run_bind, run_listdir. cbn [resolve]. rewrite E. cbv beta iota.
    cbn [fmap list_fmap fst]. rewrite run_bind, @run_lift.
    cbn [getitem lookup list_lookup]. cbv beta iota.
    rewrite run_bind, run_dcmread. cbn [path_join resolve].
    rewrite (lookup_node_child _ _ _ name E). cbn [entry].
    rewrite String.eqb_refl. cbv beta iota.
    rewrite run_bind, updateMeta_loop_spec. cbv beta iota.
    rewrite run_bind, run_emit. cbv beta iota. rewrite run_ret.
    eexists. rewrite add_trace_add_trace. reflexivity.
  - exists (data_meta d). rewrite run_ret, add_trace_nil. by destruct d.
Qed.



(** ** [FileType] *)

(** X21: the values of the members are pairwise distinct, and so are
    their names: the lookup by value and the lookup by name return the
    member they are given, and [str] of a member is the upper-case
    spelling of [str] of its value, for [NONE] as well. *)
Theorem FileType_round_trip (ft : FileType.t) :
  FileType.of_value (FileType.value ft) = Ok ft ∧
  FileType.of_name (FileType.str ft) = Ok ft ∧
  FileType.str ft = upper (str_of_value (FileType.value ft)).
Proof. by destruct ft. Qed.

(** ** [DsegConverter] *)


